(** * Statistical distance test: empirical distributions and letter ranking

    A shallow embedding of [StatisticalDistanceTest]
    (heuristic_comparisons/wasserstein_distance_testing.py).

    Python floats and NumPy [float64] values are IEEE 754 binary64 data; they
    are modelled by the Standard Library's [spec_float] with precision 53 and
    maximal exponent 1024, so that comparisons against NaN, division by zero
    and rounding behave as they do in the program. *)

From Stdlib Require Import ZArith Ascii String List Bool Arith Lia.
From Stdlib Require Import Sorted Permutation.
From Stdlib Require Import Floats.SpecFloat.
Import ListNotations.
Open Scope string_scope.
Open Scope list_scope.
Open Scope nat_scope.

(** ** Binary64 arithmetic *)

Definition float : Type := spec_float.

Module F64.

Definition prec : Z := 53.
Definition emax : Z := 1024.

Definition nan : float := S754_nan.

Definition is_nan (x : float) : bool :=
  match x with S754_nan => true | _ => false end.

Definition is_zero (x : float) : bool :=
  match x with S754_zero _ => true | _ => false end.

Definition is_infinity (x : float) : bool :=
  match x with S754_infinity _ => true | _ => false end.

(** [float(z)] for an integer [z]: the nearest binary64 value. *)
Definition of_Z (z : Z) : float := binary_normalize prec emax z 0 false.
Definition of_nat (n : nat) : float := of_Z (Z.of_nat n).

Definition add : float -> float -> float := SFadd prec emax.
Definition sub : float -> float -> float := SFsub prec emax.
Definition mul : float -> float -> float := SFmul prec emax.
Definition div : float -> float -> float := SFdiv prec emax.
Definition sqrt : float -> float := SFsqrt prec emax.
Definition abs : float -> float := SFabs.

(** The comparison operators [<], [<=] and [>=]; each is false as soon as
    one operand is NaN. *)
Definition ltb : float -> float -> bool := SFltb.
Definition leb : float -> float -> bool := SFleb.
Definition geb (x y : float) : bool := SFleb y x.

(** A decimal literal [n/d] (for instance [0.030] is [decimal 30 1000]):
    the binary64 value nearest to the quotient.  Both integers are exactly
    representable, and the quotient of two floats is correctly rounded. *)
Definition decimal (n d : Z) : float := div (of_Z n) (of_Z d).

End F64.

(** ** The rank table *)

(** One row of [LETTER_RANKS]: a dictionary with three fixed keys. *)
Record grade : Type := Grade {
  wasserstein_boundary : float;
  kolmogorov_smirnov_boundary : float;
  rank : string
}.

Definition LETTER_RANKS : list grade :=
  [ Grade (F64.decimal 30 1000)  (F64.decimal 80 1000)  "S";
    Grade (F64.decimal 60 1000)  (F64.decimal 150 1000) "A";
    Grade (F64.decimal 100 1000) (F64.decimal 170 1000) "B";
    Grade (F64.decimal 125 1000) (F64.decimal 220 1000) "C";
    Grade (F64.decimal 150 1000) (F64.decimal 260 1000) "D";
    Grade (F64.decimal 200 1000) (F64.decimal 300 1000) "E";
    Grade (F64.decimal 250 1000) (F64.decimal 340 1000) "F" ].

(** ** The rank classifier *)

(** [_letter_rank_distance_statistics]: the [for] loop over the table, with
    the two distance values and the table read from [self].  The loop returns
    at the first row whose two strict comparisons hold; when it runs off the
    end of the table the method returns ["F"]. *)
Fixpoint _letter_rank_distance_statistics
    (table : list grade) (wasserstein_d_value ks_d_value : float) : string :=
  match table with
  | [] => "F"
  | grade :: rest =>
      let ks_critical_grade := kolmogorov_smirnov_boundary grade in
      let wasserstein_critical_grade := wasserstein_boundary grade in
      if F64.ltb wasserstein_d_value wasserstein_critical_grade
         && F64.ltb ks_d_value ks_critical_grade
      then rank grade
      else _letter_rank_distance_statistics rest wasserstein_d_value ks_d_value
  end.

(** The seven labels, from the most lenient to the strictest. *)
Definition rank_scale : list string := ["S"; "A"; "B"; "C"; "D"; "E"; "F"].

(** Position of a label on the scale: 0 for ["S"], 6 for ["F"]; a string that
    is not a label gets 7. *)
Fixpoint index_of (s : string) (l : list string) : nat :=
  match l with
  | [] => 0
  | x :: r => if String.eqb s x then 0 else S (index_of s r)
  end.

Definition severity (s : string) : nat := index_of s rank_scale.

(** A table [table'] obtained from [table] by replacing every boundary by a
    value at least as large, row by row, the labels unchanged. *)
Definition scaled_up (table table' : list grade) : Prop :=
  Forall2 (fun g g' =>
             rank g' = rank g
             /\ F64.leb (wasserstein_boundary g) (wasserstein_boundary g') = true
             /\ F64.leb (kolmogorov_smirnov_boundary g)
                        (kolmogorov_smirnov_boundary g') = true)
          table table'.

(** ** The libraries the class calls into

    NumPy and SciPy are not part of the repository.  What the class needs
    from them is an interface: the development holds for every
    implementation of it.  Failure of a library call is a raised
    [ValueError]. *)

Inductive exception : Type := ValueError.

Class NumPy : Type := {
  (** State of the generator behind [np.random]. *)
  RandomState : Type;
  (** One uniform draw of an index for a population of the given size. *)
  randint : nat -> RandomState -> nat * RandomState;
  (** [ndarray.mean] and [ndarray.std] of a one-dimensional array. *)
  np_mean : list float -> float;
  np_std : list float -> float;
  (** [round(x, ndigits)] on a [float64]. *)
  np_round : float -> Z -> float
}.

Class SciPy : Type := {
  (** [scipy.stats.wasserstein_distance(u_values, v_values)]. *)
  wasserstein_distance : list float -> list float -> exception + float;
  (** [scipy.stats.ks_2samp(data1, data2)]: statistic and p-value. *)
  ks_2samp : list float -> list float -> exception + (float * float)
}.

(** [np.sort] on [float64]: ascending, NaN placed after every number.  The
    order used is [x <= y], or [y] is NaN. *)
Definition np_le (x y : float) : bool := F64.is_nan y || F64.leb x y.

Fixpoint sorted_insert (x : float) (l : list float) : list float :=
  match l with
  | [] => [x]
  | y :: r => if np_le x y then x :: l else y :: sorted_insert x r
  end.

Definition np_sort (l : list float) : list float :=
  fold_right sorted_insert [] l.

(** [np.arange(n)]. *)
Definition np_arange (n : nat) : list nat := seq 0 n.

(** ** Data frames with the columns [measure] and [probability] *)

Record row : Type := Row { measure : float; probability : float }.

Definition DataFrame (measures probabilities : list float) : list row :=
  map (fun mp => Row (fst mp) (snd mp)) (combine measures probabilities).

(** The object under construction: the attributes [__init__] sets. *)
Module Self.
Record t : Type := Build {
  sample_size : nat;
  sample_a : list row;
  sample_b : list row;
  wasserstein_d_value : float;
  ks_d_value : float;
  ks_p_value : float;
  rank : string
}.
End Self.

(** The ranges of the three statistics of a report, as comparisons on
    [float64]; a comparison with NaN is false. *)
Definition values_in_range
    (wasserstein_d_value ks_d_value ks_p_value : float) : bool :=
  F64.geb wasserstein_d_value (F64.of_Z 0)
  && (F64.geb ks_d_value (F64.of_Z 0) && F64.leb ks_d_value (F64.of_Z 1))
  && (F64.geb ks_p_value (F64.of_Z 0) && F64.leb ks_p_value (F64.of_Z 1)).

Definition report_in_range (self : Self.t) : bool :=
  values_in_range (Self.wasserstein_d_value self) (Self.ks_d_value self)
                  (Self.ks_p_value self).

(** The tail cut of the empirical distribution, the literal [0.96]. *)
Definition tail_cut : float := F64.decimal 96 100.

Section Engine.

Context {numpy : NumPy} {scipy : SciPy}.

(** *** Computations that consume randomness and may raise *)

Definition M (A : Type) : Type := RandomState -> exception + (A * RandomState).

Definition ret {A} (x : A) : M A := fun g => inr (x, g).

Definition bind {A B} (c : M A) (k : A -> M B) : M B :=
  fun g => match c g with
           | inl e => inl e
           | inr (x, g') => k x g'
           end.

Definition lift {A} (r : exception + A) : M A :=
  fun g => match r with
           | inl e => inl e
           | inr x => inr (x, g)
           end.

Notation "x <- c ;; k" := (bind c (fun x => k))
  (at level 61, c at next level, right associativity).
Notation "' p <- c ;; k" := (bind c (fun x => let 'p := x in k))
  (at level 61, p pattern, c at next level, right associativity).

(** [size] draws with replacement: every draw picks an index on its own,
    whatever was drawn before.  NumPy returns an index below the population
    size; the reduction keeps the subscript in range for every generator. *)
Fixpoint draw (population : list float) (size : nat) (g : RandomState)
  : list float * RandomState :=
  match size with
  | O => ([], g)
  | S size' =>
      let (i, g1) := randint (length population) g in
      let (rest, g2) := draw population size' g1 in
      (nth (i mod length population) population F64.nan :: rest, g2)
  end.

(** [np.random.choice(population, size)]: an empty population can only be
    sampled zero times. *)
Definition np_random_choice (population : list float) (size : nat)
  : M (list float) :=
  fun g => match population, size with
           | [], S _ => inl ValueError
           | _, _ => inr (draw population size g)
           end.

(** [normalize_raw_data]: array minus scalar, divided by scalar. *)
Definition normalize_raw_data (raw_data : list float) : list float :=
  map (fun x => F64.div (F64.sub x (np_mean raw_data)) (np_std raw_data))
      raw_data.

(** The probability column, [np.arange(len(s)) / float(len(s))]. *)
Definition probabilities (n : nat) : list float :=
  map (fun i => F64.div (F64.of_nat i) (F64.of_nat n)) (np_arange n).

(** The row filter [~(sample['probability'] >= 0.96)]. *)
Definition keeps (r : row) : bool := negb (F64.geb (probability r) tail_cut).

(** The data frame built from a resampled draw and its tail cut off: the
    part of the eCDF method after the draw. *)
Definition empirical_distribution (raw_data : list float) : list row :=
  let normalized_sample := normalize_raw_data raw_data in
  let sample :=
    DataFrame (np_sort normalized_sample)
              (probabilities (length normalized_sample)) in
  filter keeps sample.

Definition _calculate_empirical_cumulative_distribution_function
    (sample_size : nat) (population : list float) : M (list row) :=
  raw_data <- np_random_choice population sample_size ;;
  ret (empirical_distribution raw_data).

Definition _calculate_wasserstein_distance_statistics
    (sample_a sample_b : list row) : exception + float :=
  match wasserstein_distance (map measure sample_a) (map measure sample_b) with
  | inl e => inl e
  | inr wasserstein => inr (np_round wasserstein 3)
  end.

Definition _calculate_kolmogorov_smirnov_distance_statistics
    (sample_a sample_b : list row) : exception + (float * float) :=
  match ks_2samp (map measure sample_a) (map measure sample_b) with
  | inl e => inl e
  | inr (kolmogorov_smirnov_distance, kolmogorov_smirnov_probability) =>
      inr (np_round kolmogorov_smirnov_distance 3,
           kolmogorov_smirnov_probability)
  end.

(** [__init__]: the six assignments, in order. *)
Definition __init__ (population_a population_b : list float) : M Self.t :=
  let sample_size := Nat.min (length population_a) (length population_b) in
  sample_a <- _calculate_empirical_cumulative_distribution_function
                sample_size population_a ;;
  sample_b <- _calculate_empirical_cumulative_distribution_function
                sample_size population_b ;;
  wasserstein_d_value <-
    lift (_calculate_wasserstein_distance_statistics sample_a sample_b) ;;
  ' (ks_d_value, ks_p_value) <-
    lift (_calculate_kolmogorov_smirnov_distance_statistics sample_a sample_b) ;;
  let rank :=
    _letter_rank_distance_statistics
      LETTER_RANKS wasserstein_d_value ks_d_value in
  ret (Self.Build sample_size sample_a sample_b
         wasserstein_d_value ks_d_value ks_p_value rank).

(** The statistics and the rank as a function of the two samples: what
    [__init__] does once the samples are built. *)
Definition analyse (sample_size : nat) (sample_a sample_b : list row)
  : exception + Self.t :=
  match _calculate_wasserstein_distance_statistics sample_a sample_b with
  | inl e => inl e
  | inr wasserstein_d_value =>
      match _calculate_kolmogorov_smirnov_distance_statistics
              sample_a sample_b with
      | inl e => inl e
      | inr (ks_d_value, ks_p_value) =>
          inr (Self.Build sample_size sample_a sample_b
                 wasserstein_d_value ks_d_value ks_p_value
                 (_letter_rank_distance_statistics
                    LETTER_RANKS wasserstein_d_value ks_d_value))
      end
  end.

(** The values the two resampling steps of a construction draw. *)
Definition resampled (population_a population_b : list float)
  : M (list float * list float) :=
  let sample_size := Nat.min (length population_a) (length population_b) in
  raw_a <- np_random_choice population_a sample_size ;;
  raw_b <- np_random_choice population_b sample_size ;;
  ret (raw_a, raw_b).

(** What a run leaves to its caller: the constructed object or the exception,
    the generator state dropped. *)
Definition outcome {A} (r : exception + (A * RandomState)) : exception + A :=
  match r with
  | inl e => inl e
  | inr (x, _) => inr x
  end.

End Engine.

(** ** Reference implementations of the libraries

    Plain implementations of the two interfaces, for running the model on
    concrete inputs.  No property below the examples depends on them.

    The reductions add from left to right.  The Wasserstein distance and the
    Kolmogorov-Smirnov statistic are computed from the two empirical
    distribution functions at the pooled sample points; the p-value is the
    exact two-sided one, the share of the monotone lattice paths from (0, 0)
    to (n1, n2) that reach the observed distance. *)

Module Reference.

Definition lcg (s : Z) : Z := ((s * 1103515245 + 12345) mod 2147483648)%Z.

Definition randint (n : nat) (s : Z) : nat * Z :=
  (Z.to_nat ((s / 65536) mod Z.of_nat n), lcg s).

Definition sum (l : list float) : float := fold_left F64.add l (F64.of_Z 0).

Definition mean (l : list float) : float :=
  F64.div (sum l) (F64.of_nat (length l)).

Definition std (l : list float) : float :=
  let m := mean l in
  F64.sqrt (mean (map (fun x => let d := F64.abs (F64.sub x m) in F64.mul d d) l)).

(** Round to the nearest integer, ties to even. *)
Definition rint (x : float) : float :=
  let two52 := F64.of_Z (2 ^ 52) in
  match x with
  | S754_finite s _ _ =>
      if F64.ltb (F64.abs x) two52
      then if s then F64.add (F64.sub x two52) two52
           else F64.sub (F64.add x two52) two52
      else x
  | _ => x
  end.

Definition round (x : float) (ndigits : Z) : float :=
  let scale := F64.of_Z (10 ^ Z.abs ndigits) in
  if (0 <=? ndigits)%Z
  then F64.div (rint (F64.mul x scale)) scale
  else F64.mul (rint (F64.div x scale)) scale.

Definition numpy : NumPy := Build_NumPy Z randint mean std round.

(** A generator state, from an integer seed. *)
Definition seed (s : Z) : @RandomState numpy := s.

(** Number of elements of [l] that are [<= x]. *)
Definition count_le (l : list float) (x : float) : nat :=
  length (filter (fun y => F64.leb y x) l).

Definition cdf (l : list float) (x : float) : float :=
  F64.div (F64.of_nat (count_le l x)) (F64.of_nat (length l)).

Fixpoint diff (l : list float) : list float :=
  match l with
  | x :: (y :: _) as r => F64.sub y x :: diff r
  | _ => []
  end.

Definition wasserstein_distance (u v : list float) : exception + float :=
  match u, v with
  | [], _ | _, [] => inl ValueError
  | _, _ =>
      let all_values := np_sort (u ++ v) in
      let deltas := diff all_values in
      inr (sum (map (fun xd =>
                       F64.mul (F64.abs (F64.sub (cdf u (fst xd)) (cdf v (fst xd))))
                               (snd xd))
                    (combine all_values deltas)))
  end.

Definition fmax (x y : float) : float := if F64.ltb x y then y else x.

(** Paths: one row of the count of lattice paths that stay where [ok] holds,
    from the row below. *)
Fixpoint path_row (ok : nat -> bool) (i : nat) (left : Z) (below : list Z)
  : list Z :=
  match below with
  | [] => []
  | b :: below' =>
      let here := if ok i then (left + b)%Z else 0%Z in
      here :: path_row ok (S i) here below'
  end.

Definition paths (n1 n2 : nat) (ok : nat -> nat -> bool) : Z :=
  let start := path_row (fun i => ok i 0) 0 0%Z (1%Z :: repeat 0%Z n1) in
  last (fold_left (fun below j => path_row (fun i => ok i j) 0 0%Z below)
                  (seq 1 n2) start) 0%Z.

(** The distance of the two empirical distribution functions at [x], times
    [n1 * n2]. *)
Definition gap (data1 data2 : list float) (x : float) : Z :=
  Z.abs (Z.of_nat (count_le data1 x) * Z.of_nat (length data2)
         - Z.of_nat (count_le data2 x) * Z.of_nat (length data1)).

Definition ks_2samp (data1 data2 : list float) : exception + (float * float) :=
  match data1, data2 with
  | [], _ | _, [] => inl ValueError
  | _, _ =>
      let n1 := length data1 in
      let n2 := length data2 in
      let data_all := data1 ++ data2 in
      let d :=
        fold_left fmax
          (map (fun x => F64.abs (F64.sub (cdf data1 x) (cdf data2 x))) data_all)
          (F64.of_Z 0) in
      let h := fold_left Z.max (map (gap data1 data2) data_all) 0%Z in
      let inside (i j : nat) : bool :=
        (Z.abs (Z.of_nat i * Z.of_nat n2 - Z.of_nat j * Z.of_nat n1) <? h)%Z in
      let total := paths n1 n2 (fun _ _ => true) in
      let within := paths n1 n2 inside in
      inr (d, F64.div (F64.of_Z (total - within)) (F64.of_Z total))
  end.

Definition scipy : SciPy := Build_SciPy wasserstein_distance ks_2samp.

End Reference.

(** ** Inputs of the examples *)

(** The table [LETTER_RANKS] with every boundary doubled. *)
Definition doubled (table : list grade) : list grade :=
  map (fun g => Grade (F64.mul (F64.of_Z 2) (wasserstein_boundary g))
                      (F64.mul (F64.of_Z 2) (kolmogorov_smirnov_boundary g))
                      (rank g))
      table.

(** The integers [1.0, 2.0, ..., n]. *)
Definition floats_to (n : nat) : list float :=
  map (fun i => F64.of_nat (S i)) (seq 0 n).

(** A population of identical values. *)
Definition ones : list float := repeat (F64.of_Z 1) 3.

(** ** Quantities of the rounding analysis *)

(** Number of binary digits of a positive integer. *)
Definition bits (k : Z) : Z := (Z.log2 k + 1)%Z.

(** The normalized mantissa of a positive integer below [2 ^ 53]. *)
Definition mantissa (k : Z) : Z := (k * 2 ^ (53 - bits k))%Z.

(** The mantissa of the literal [0.96]: the literal is this integer times
    [2 ^ -53]. *)
Definition cut_mantissa : positive := 8646911284551352%positive.

(** ** Reading result files and building scenarios (data/wranglers.py) *)

Module Wranglers.

(** The exceptions this module's code can end with. *)
Inductive exception : Type :=
  ValueError | KeyError | OverflowError | IndexError | AttributeError.

(** What the two classes take from Python itself: [float] on a string, and
    the generator of the module [random]. *)
Class Python : Type := {
  (** [float(s)]; [None] when it raises [ValueError]. *)
  float_of_str : string -> option float;
  (** State of the generator of [random]. *)
  Random : Type;
  (** [_randbelow(n)]: one draw below [n]. *)
  randbelow : nat -> Random -> nat * Random
}.

(** [s.replace(",", ".")]. *)
Fixpoint replace_comma (s : string) : string :=
  match s with
  | EmptyString => EmptyString
  | String c r =>
      String (if Ascii.eqb c ","%char then "."%char else c) (replace_comma r)
  end.

(** A cell of a chunk, as [chunk.values.tolist()] hands it over.  pandas
    chooses the type of a column chunk by chunk: a [str] where the text of
    the column is not all numbers, an [int] or a [float] where it is, a
    [float] NaN for a missing value, a [bool] for a column of truth
    values. *)
Inductive cell : Type :=
| Str (s : string)
| Int (z : Z)
| Float (x : float)
| Bool (b : bool).

(** A run id, the key of the dictionary: the [str] of a column of text or the
    [int] of a column of whole numbers.  Run ids are compared as Python
    compares dictionary keys: a [str] never equals an [int].  A run-id
    column that pandas hands over as [float] or [bool] (fractions, a missing
    value, truth values) is not covered. *)
Inductive run_id : Type :=
| StrId (s : string)
| IntId (z : Z).

Definition run_id_eqb (a b : run_id) : bool :=
  match a, b with
  | StrId s, StrId t => String.eqb s t
  | IntId z, IntId w => Z.eqb z w
  | _, _ => false
  end.

Definition is_str (a : run_id) : Prop :=
  match a with
  | StrId _ => True
  | IntId _ => False
  end.

Definition run_id_eq_dec (a b : run_id) : {a = b} + {a <> b} :=
  match a, b with
  | StrId s, StrId t =>
      match string_dec s t with
      | left e => left (f_equal StrId e)
      | right n =>
          right (fun h : StrId s = StrId t =>
                   n (f_equal (fun k => match k with
                                        | StrId x => x
                                        | IntId _ => s
                                        end) h))
      end
  | IntId z, IntId w =>
      match Z.eq_dec z w with
      | left e => left (f_equal IntId e)
      | right n =>
          right (fun h : IntId z = IntId w =>
                   n (f_equal (fun k => match k with
                                        | IntId x => x
                                        | StrId _ => z
                                        end) h))
      end
  | StrId s, IntId w =>
      right (fun h : StrId s = IntId w =>
               eq_ind (StrId s) is_str I (IntId w) h)
  | IntId z, StrId t =>
      right (fun h : IntId z = StrId t =>
               eq_ind (StrId t) is_str I (IntId z) (eq_sym h))
  end.

(** One row of a chunk: the cells [line[0]] to [line[3]], the response time,
    the run id, the timestamp and the action. *)
Record line : Type := Line {
  response_time : cell;
  runid : run_id;
  timestamp : cell;
  action : cell
}.

(** The value stored under a run id: three lists that grow together. *)
Record series : Type := Series {
  response_times : list float;
  timestamps : list cell;
  actions : list cell
}.

(** The three lists of a value have one length. *)
Definition aligned (s : series) : Prop :=
  length (timestamps s) = length (response_times s)
  /\ length (actions s) = length (response_times s).

(** [self.data]: a dictionary, its keys in insertion order. *)
Definition dict : Type := list (run_id * series).

Fixpoint lookup (key : run_id) (data : dict) : option series :=
  match data with
  | [] => None
  | (k, s) :: rest => if run_id_eqb key k then Some s else lookup key rest
  end.

(** The two branches of [add_chunk_to_json]: a new key is added after the
    others, a known key gets the three values appended. *)
Fixpoint store (key : run_id) (response_time : float) (ts act : cell)
    (data : dict) : dict :=
  match data with
  | [] => [(key, Series [response_time] [ts] [act])]
  | (k, s) :: rest =>
      if run_id_eqb key k
      then (k, Series (response_times s ++ [response_time])
                      (timestamps s ++ [ts])
                      (actions s ++ [act])) :: rest
      else (k, s) :: store key response_time ts act rest
  end.

Section Code.

Context {python : Python}.

(** [float(line[0].replace(",", "."))]: only a [str] has the method
    [replace], on every other cell the attribute lookup raises; on a [str]
    the only failure is that of [float]. *)
Definition parse_response_time (l : line) : exception + float :=
  match response_time l with
  | Str s =>
      match float_of_str (replace_comma s) with
      | Some x => inr x
      | None => inl ValueError
      end
  | Int _ | Float _ | Bool _ => inl AttributeError
  end.

(** The response times of the rows that parse, in order. *)
Definition parsed_times (rows : list line) : list float :=
  flat_map (fun l => match parse_response_time l with
                     | inr x => [x]
                     | inl _ => []
                     end) rows.

(** The body of the loop of [add_chunk_to_json], for one row. *)
Definition add_line (data : dict) (l : line) : exception + dict :=
  match parse_response_time l with
  | inl e => inl e
  | inr response_time =>
      inr (store (runid l) response_time (timestamp l) (action l) data)
  end.

Fixpoint add_chunk_to_json (data : dict) (chunk : list line)
  : exception + dict :=
  match chunk with
  | [] => inr data
  | l :: rest =>
      match add_line data l with
      | inl e => inl e
      | inr data' => add_chunk_to_json data' rest
      end
  end.

(** [convert_csv_to_json], from the state [self.data] has on entry. *)
Fixpoint convert_csv_to_json (data : dict) (file : list (list line))
  : exception + dict :=
  match file with
  | [] => inr data
  | chunk :: rest =>
      match add_chunk_to_json data chunk with
      | inl e => inl e
      | inr data' => convert_csv_to_json data' rest
      end
  end.

(** [ConvertCsvResultsIntoDictionary(path).data], the file given as the
    chunks [pd.read_csv] yields, each with the cell types pandas gave it. *)
Definition ConvertCsvResultsIntoDictionary (file : list (list line))
  : exception + dict :=
  convert_csv_to_json [] file.

(** [int(x)] on a float: truncation towards zero. *)
Definition py_int (x : float) : exception + Z :=
  match x with
  | S754_nan => inl ValueError
  | S754_infinity _ => inl OverflowError
  | S754_zero _ => inr 0%Z
  | S754_finite s m e =>
      let magnitude :=
        match e with
        | Zneg p => Z.shiftr (Zpos m) (Zpos p)
        | _ => Z.shiftl (Zpos m) e
        end in
      inr (if s then Z.opp magnitude else magnitude)
  end.

(** [random.randint(a, b)]: [a] plus a draw below the width of the range;
    an empty range raises.  The reduction keeps the draw below the width for
    every generator. *)
Definition randint (a b : Z) (g : Random) : exception + (Z * Random) :=
  let width := Z.to_nat (b - a + 1) in
  match width with
  | O => inl ValueError
  | S _ =>
      let (r, g') := randbelow width g in
      inr ((a + Z.of_nat (r mod width))%Z, g')
  end.

(** [population[index] = value]. *)
Fixpoint set_item (population : list float) (index : nat) (value : float)
  : list float :=
  match population, index with
  | [], _ => []
  | _ :: rest, O => value :: rest
  | x :: rest, S index' => x :: set_item rest index' value
  end.

(** The loop of [randomly_decrease_or_increase_part_of_the_population],
    [iterations] rounds of it. *)
Fixpoint perturb (iterations : nat) (population : list float)
    (positive : bool) (delta : float) (g : Random)
  : exception + (list float * Random) :=
  match iterations with
  | O => inr (population, g)
  | S iterations' =>
      match randint 0 (Z.of_nat (length population) - 1) g with
      | inl e => inl e
      | inr (i, g1) =>
          let rand_index := Z.to_nat (Z.abs i) in
          match nth_error population rand_index with
          | None => inl IndexError
          | Some current =>
              let change :=
                F64.mul (F64.div current (F64.of_Z 100)) delta in
              let new :=
                if positive then F64.add current change
                else F64.abs (F64.sub current change) in
              perturb iterations' (set_item population rand_index new)
                      positive delta g1
          end
      end
  end.

(** The number of rounds, [int(len(population) / 100 * percentage)]; a
    negative number gives an empty [range]. *)
Definition rounds (population : list float) (percentage : float)
  : exception + Z :=
  py_int (F64.mul (F64.div (F64.of_nat (length population)) (F64.of_Z 100))
                  percentage).

Definition randomly_decrease_or_increase_part_of_the_population
    (population : list float) (positive : bool) (percentage delta : float)
    (g : Random) : exception + (list float * Random) :=
  match rounds population percentage with
  | inl e => inl e
  | inr k => perturb (Z.to_nat k) population positive delta g
  end.

(** The attributes [CreateFictitiousScenario.__init__] sets. *)
Record scenario : Type := Scenario {
  baseline_x : list cell;
  baseline_y : list float;
  benchmark_x : list cell;
  benchmark_y : list float
}.

(** [scenarios[key]]. *)
Definition getitem (key : run_id) (scenarios : dict) : exception + series :=
  match lookup key scenarios with
  | None => inl KeyError
  | Some s => inr s
  end.

Definition CreateFictitiousScenario
    (baseline_id benchmark_id : run_id) (data_set : list (list line))
    (positive : bool) (percentage delta : float) (g : Random)
  : exception + (scenario * Random) :=
  match ConvertCsvResultsIntoDictionary data_set with
  | inl e => inl e
  | inr scenarios =>
      match getitem baseline_id scenarios with
      | inl e => inl e
      | inr baseline =>
          match getitem benchmark_id scenarios with
          | inl e => inl e
          | inr benchmark =>
              match randomly_decrease_or_increase_part_of_the_population
                      (response_times benchmark) positive percentage delta g
              with
              | inl e => inl e
              | inr (perturbed, g') =>
                  inr (Scenario (timestamps baseline)
                                (response_times baseline)
                                (timestamps benchmark)
                                perturbed, g')
              end
          end
      end
  end.

End Code.

End Wranglers.

(** ** A reference implementation of the Python interface

    For running the model on concrete inputs: [float] reads plain decimal
    notation (an optional sign, digits, an optional point and digits) and
    rejects everything else; the generator is a linear congruential one. *)

Module ReferencePython.

Definition digit (c : ascii) : option Z :=
  let n := Z.of_nat (nat_of_ascii c) in
  if ((48 <=? n) && (n <=? 57))%Z then Some (n - 48)%Z else None.

(** Reads digits and at most one point: the digits as an integer and the
    number of digits after the point. *)
Fixpoint read_decimal (s : string) (value : Z) (after_point : option nat)
  : option (Z * nat) :=
  match s with
  | EmptyString =>
      Some (value, match after_point with Some k => k | None => O end)
  | String c rest =>
      if Ascii.eqb c "."%char
      then match after_point with
           | None => read_decimal rest value (Some O)
           | Some _ => None
           end
      else match digit c with
           | None => None
           | Some d =>
               read_decimal rest (10 * value + d)%Z
                            (option_map S after_point)
           end
  end.

Definition float_of_str (s : string) : option float :=
  let (negative, body) :=
    match s with
    | String c rest =>
        if Ascii.eqb c "-"%char then (true, rest) else (false, s)
    | EmptyString => (false, s)
    end in
  match body with
  | EmptyString => None
  | _ =>
      match read_decimal body 0%Z None with
      | None => None
      | Some (value, places) =>
          Some (F64.decimal (if negative then - value else value)%Z
                            (10 ^ Z.of_nat places)%Z)
      end
  end.

Definition randbelow (n : nat) (s : Z) : nat * Z :=
  (Z.to_nat ((s / 65536) mod Z.of_nat n), Reference.lcg s).

Definition python : Wranglers.Python :=
  Wranglers.Build_Python float_of_str Z randbelow.

(** A generator state, from an integer seed. *)
Definition seed (s : Z) : @Wranglers.Random python := s.

(** A row whose four cells are text. *)
Definition text_line (response_time runid timestamp action : string)
  : Wranglers.line :=
  Wranglers.Line (Wranglers.Str response_time) (Wranglers.StrId runid)
                 (Wranglers.Str timestamp) (Wranglers.Str action).

(** A row of a chunk whose run-id column pandas read as whole numbers. *)
Definition numbered_line (response_time : string) (runid : Z)
    (timestamp action : string) : Wranglers.line :=
  Wranglers.Line (Wranglers.Str response_time) (Wranglers.IntId runid)
                 (Wranglers.Str timestamp) (Wranglers.Str action).

(** A result file of five rows in two chunks, two run ids. *)
Definition results : list (list Wranglers.line) :=
  [ [ text_line "1,5" "run-1" "10:00:00" "login";
      text_line "2,25" "run-2" "10:00:01" "login";
      text_line "3" "run-1" "10:00:02" "search" ];
    [ text_line "0,75" "run-2" "10:00:03" "search";
      text_line "4,5" "run-1" "10:00:04" "logout" ] ].

(** The same rows, grouped by run id. *)
Definition results_data : Wranglers.dict :=
  [ (Wranglers.StrId "run-1",
     Wranglers.Series
       [F64.decimal 15 10; F64.of_Z 3; F64.decimal 45 10]
       (map Wranglers.Str ["10:00:00"; "10:00:02"; "10:00:04"])
       (map Wranglers.Str ["login"; "search"; "logout"]));
    (Wranglers.StrId "run-2",
     Wranglers.Series
       [F64.decimal 225 100; F64.decimal 75 100]
       (map Wranglers.Str ["10:00:01"; "10:00:03"])
       (map Wranglers.Str ["login"; "search"])) ].

(** A result file whose run ids are the numbers 1 and 2. *)
Definition numbered_results : list (list Wranglers.line) :=
  [ [ numbered_line "1,5" 1 "10:00:00" "login";
      numbered_line "2,25" 2 "10:00:01" "login";
      numbered_line "0,75" 1 "10:00:02" "search" ] ].

End ReferencePython.

(** * Properties *)

(** ** Order facts on binary64 values *)

Lemma SFcompare_cont_compare (m1 m2 : positive) :
  Pos.compare_cont Eq m1 m2 = Pos.compare m1 m2.
Proof. reflexivity. Qed.

Ltac float_order_cases :=
  repeat match goal with
         | H : context [Pos.compare_cont Eq ?a ?b] |- _ =>
             rewrite (SFcompare_cont_compare a b) in H
         | |- context [Pos.compare_cont Eq ?a ?b] =>
             rewrite (SFcompare_cont_compare a b)
         end;
  repeat match goal with
         | H : context [Z.compare ?a ?b] |- _ =>
             destruct (Z.compare_spec a b); simpl in H
         | H : context [Pos.compare ?a ?b] |- _ =>
             destruct (Pos.compare_spec a b); simpl in H
         | |- context [Z.compare ?a ?b] =>
             destruct (Z.compare_spec a b); simpl
         | |- context [Pos.compare ?a ?b] =>
             destruct (Pos.compare_spec a b); simpl
         end;
  try discriminate; try reflexivity; try (exfalso; lia).

Lemma SFcompare_refl (x : float) :
  SFcompare x x = None \/ SFcompare x x = Some Eq.
Proof.
  destruct x as [s|s| |s m e]; simpl; auto; destruct s; auto;
    rewrite Z.compare_refl, SFcompare_cont_compare, Pos.compare_refl; auto.
Qed.

Lemma SFcompare_antisym (x y : float) (c : comparison) :
  SFcompare x y = Some c -> SFcompare y x = Some (CompOpp c).
Proof.
  destruct x as [sx|sx| |sx mx ex], y as [sy|sy| |sy my ey]; simpl;
    try discriminate;
    try (destruct sx); try (destruct sy);
    intros H; injection H as H; subst c; try reflexivity; f_equal;
    float_order_cases.
Qed.

Ltac float_order_trans :=
  match goal with
  | |- SFcompare ?x ?y = _ -> SFcompare ?y ?z = _ -> _ =>
      destruct x as [?s|?s| |?s ?m ?e], y as [?s|?s| |?s ?m ?e],
        z as [?s|?s| |?s ?m ?e]; simpl;
      try discriminate;
      repeat match goal with s : bool |- _ => destruct s end;
      try discriminate; try reflexivity;
      let H1 := fresh in let H2 := fresh in
      intros H1 H2; injection H1 as H1; injection H2 as H2; f_equal;
      float_order_cases
  end.

Lemma SFcompare_lt_trans (x y z : float) :
  SFcompare x y = Some Lt -> SFcompare y z = Some Lt -> SFcompare x z = Some Lt.
Proof. float_order_trans. Qed.

Lemma SFcompare_eq_lt (x y z : float) :
  SFcompare x y = Some Eq -> SFcompare y z = Some Lt -> SFcompare x z = Some Lt.
Proof. float_order_trans. Qed.

Lemma SFcompare_lt_eq (x y z : float) :
  SFcompare x y = Some Lt -> SFcompare y z = Some Eq -> SFcompare x z = Some Lt.
Proof. float_order_trans. Qed.

Lemma SFcompare_eq_trans (x y z : float) :
  SFcompare x y = Some Eq -> SFcompare y z = Some Eq -> SFcompare x z = Some Eq.
Proof. float_order_trans. Qed.

Lemma ltb_irrefl (x : float) : F64.ltb x x = false.
Proof.
  unfold F64.ltb, SFltb. destruct (SFcompare_refl x) as [E|E]; rewrite E; reflexivity.
Qed.

Lemma ltb_nan_l (y : float) : F64.ltb F64.nan y = false.
Proof. reflexivity. Qed.

Lemma ltb_nan_r (x : float) : F64.ltb x F64.nan = false.
Proof. destruct x; reflexivity. Qed.

Lemma is_nan_eq (x : float) : F64.is_nan x = true -> x = F64.nan.
Proof. destruct x; simpl; try discriminate; reflexivity. Qed.

Lemma ltb_leb_trans (x y z : float) :
  F64.ltb x y = true -> F64.leb y z = true -> F64.ltb x z = true.
Proof.
  unfold F64.ltb, F64.leb, SFltb, SFleb.
  destruct (SFcompare x y) as [[ | | ]|] eqn:Exy; try discriminate.
  destruct (SFcompare y z) as [[ | | ]|] eqn:Eyz; try discriminate; intros _ _.
  - rewrite (SFcompare_lt_eq _ _ _ Exy Eyz). reflexivity.
  - rewrite (SFcompare_lt_trans _ _ _ Exy Eyz). reflexivity.
Qed.

Lemma leb_trans (x y z : float) :
  F64.leb x y = true -> F64.leb y z = true -> F64.leb x z = true.
Proof.
  unfold F64.leb, SFleb.
  destruct (SFcompare x y) as [[ | | ]|] eqn:Exy; try discriminate;
    destruct (SFcompare y z) as [[ | | ]|] eqn:Eyz; try discriminate; intros _ _.
  - rewrite (SFcompare_eq_trans _ _ _ Exy Eyz). reflexivity.
  - rewrite (SFcompare_eq_lt _ _ _ Exy Eyz). reflexivity.
  - rewrite (SFcompare_lt_eq _ _ _ Exy Eyz). reflexivity.
  - rewrite (SFcompare_lt_trans _ _ _ Exy Eyz). reflexivity.
Qed.

Lemma leb_total (x y : float) :
  F64.is_nan x = false -> F64.is_nan y = false ->
  F64.leb x y = false -> F64.leb y x = true.
Proof.
  unfold F64.leb, SFleb. intros Hx Hy.
  destruct (SFcompare x y) as [c|] eqn:E.
  - rewrite (SFcompare_antisym _ _ _ E). destruct c; simpl; congruence.
  - destruct x, y; simpl in *; try discriminate;
      repeat match goal with s : bool |- _ => destruct s end; discriminate.
Qed.

Lemma leb_not_nan (x y : float) :
  F64.leb x y = true -> F64.is_nan x = false /\ F64.is_nan y = false.
Proof. destruct x, y; simpl; try discriminate; auto. Qed.

(** [np_le] is a total preorder: what a comparison sort relies on. *)
Lemma np_le_total (x y : float) : np_le x y = false -> np_le y x = true.
Proof.
  unfold np_le. intros H. apply orb_false_iff in H as [Hy Hxy].
  destruct (F64.is_nan x) eqn:Hx; [reflexivity|]. simpl.
  apply leb_total; assumption.
Qed.

Lemma np_le_trans (x y z : float) :
  np_le x y = true -> np_le y z = true -> np_le x z = true.
Proof.
  unfold np_le. intros H1 H2.
  destruct (F64.is_nan z) eqn:Hz; [reflexivity|]. simpl in *.
  destruct (F64.is_nan y) eqn:Hy; simpl in *.
  - apply leb_not_nan in H2. destruct H2; congruence.
  - eapply leb_trans; eassumption.
Qed.

(** ** The rank classifier *)

(** A row qualifies when both strict comparisons of the loop body hold. *)
Lemma qualifies_iff (w k : float) (g : grade) :
  F64.ltb w (wasserstein_boundary g)
  && F64.ltb k (kolmogorov_smirnov_boundary g) = true
  <-> F64.ltb w (wasserstein_boundary g) = true
      /\ F64.ltb k (kolmogorov_smirnov_boundary g) = true.
Proof. apply andb_true_iff. Qed.

Lemma letter_rank_skip (w k : float) (pre rest : list grade) :
  Forall (fun h => F64.ltb w (wasserstein_boundary h)
                   && F64.ltb k (kolmogorov_smirnov_boundary h) = false) pre ->
  _letter_rank_distance_statistics (pre ++ rest) w k
  = _letter_rank_distance_statistics rest w k.
Proof.
  induction 1 as [|h pre Hh _ IH]; simpl; [reflexivity|].
  rewrite Hh. exact IH.
Qed.

Lemma letter_rank_no_match (w k : float) (table : list grade) :
  Forall (fun h => F64.ltb w (wasserstein_boundary h)
                   && F64.ltb k (kolmogorov_smirnov_boundary h) = false) table ->
  _letter_rank_distance_statistics table w k = "F".
Proof.
  intros H. rewrite <- (app_nil_r table). rewrite letter_rank_skip; auto.
Qed.

Lemma letter_rank_first_match (w k : float) (pre post : list grade) (g : grade) :
  Forall (fun h => F64.ltb w (wasserstein_boundary h)
                   && F64.ltb k (kolmogorov_smirnov_boundary h) = false) pre ->
  F64.ltb w (wasserstein_boundary g) = true ->
  F64.ltb k (kolmogorov_smirnov_boundary g) = true ->
  _letter_rank_distance_statistics (pre ++ g :: post) w k = rank g.
Proof.
  intros Hpre Hw Hk. rewrite letter_rank_skip by assumption.
  simpl. rewrite Hw, Hk. reflexivity.
Qed.

Lemma tie_does_not_qualify (w k : float) (g : grade) :
  w = wasserstein_boundary g \/ k = kolmogorov_smirnov_boundary g ->
  F64.ltb w (wasserstein_boundary g)
  && F64.ltb k (kolmogorov_smirnov_boundary g) = false.
Proof.
  intros [-> | ->]; rewrite ltb_irrefl; [reflexivity | apply andb_false_r].
Qed.

(** The scan returns the label of one of the rows, or the fallback. *)
Lemma letter_rank_in (w k : float) (table : list grade) :
  _letter_rank_distance_statistics table w k = "F"
  \/ exists g, In g table /\ _letter_rank_distance_statistics table w k = rank g.
Proof.
  induction table as [|g table IH]; simpl; [left; reflexivity|].
  destruct (F64.ltb w (wasserstein_boundary g)
            && F64.ltb k (kolmogorov_smirnov_boundary g)).
  - right. exists g. auto.
  - destruct IH as [IH | [h [Hh IH]]]; [left; assumption|].
    right. exists h. auto.
Qed.

(** C1.  For every pair of distance values the classifier returns the label
    of the first row of [LETTER_RANKS], read from S to F, both of whose
    boundaries are strictly above the values; a value equal to a row's
    boundary does not qualify for that row and the scan goes on with the rows
    after it; when no row qualifies the rank is ["F"]. *)
Theorem letter_rank_is_first_strict_match (w k : float) :
  (forall pre g post,
      LETTER_RANKS = pre ++ g :: post ->
      Forall (fun h => F64.ltb w (wasserstein_boundary h)
                       && F64.ltb k (kolmogorov_smirnov_boundary h) = false)
             pre ->
      (F64.ltb w (wasserstein_boundary g) = true ->
       F64.ltb k (kolmogorov_smirnov_boundary g) = true ->
       _letter_rank_distance_statistics LETTER_RANKS w k = rank g)
      /\ (w = wasserstein_boundary g \/ k = kolmogorov_smirnov_boundary g ->
          _letter_rank_distance_statistics LETTER_RANKS w k
          = _letter_rank_distance_statistics post w k))
  /\ (Forall (fun h => F64.ltb w (wasserstein_boundary h)
                       && F64.ltb k (kolmogorov_smirnov_boundary h) = false)
             LETTER_RANKS ->
      _letter_rank_distance_statistics LETTER_RANKS w k = "F")
  /\ map rank LETTER_RANKS = rank_scale.
Proof.
  split; [|split; [apply letter_rank_no_match | reflexivity]].
  intros pre g post -> Hpre. split.
  - intros Hw Hk. apply letter_rank_first_match; assumption.
  - intros Htie. rewrite letter_rank_skip by assumption.
    simpl. rewrite (tie_does_not_qualify w k g Htie). reflexivity.
Qed.

(** A value on the S row's wasserstein boundary, with a small KS value, is
    ranked A; values below every S boundary are ranked S; values above every
    boundary are ranked F. *)
Example rank_on_S_boundary :
  _letter_rank_distance_statistics
    LETTER_RANKS (F64.decimal 30 1000) (F64.decimal 50 1000) = "A".
Proof. vm_compute. reflexivity. Qed.

Example rank_below_S_boundaries :
  _letter_rank_distance_statistics
    LETTER_RANKS (F64.decimal 29 1000) (F64.decimal 79 1000) = "S".
Proof. vm_compute. reflexivity. Qed.

Example rank_mild_wasserstein_extreme_ks :
  _letter_rank_distance_statistics
    LETTER_RANKS (F64.decimal 10 1000) (F64.decimal 290 1000) = "E".
Proof. vm_compute. reflexivity. Qed.

Example rank_above_every_boundary :
  _letter_rank_distance_statistics
    LETTER_RANKS (F64.decimal 250 1000) (F64.decimal 10 1000) = "F".
Proof. vm_compute. reflexivity. Qed.

(** C6.  [LETTER_RANKS] has exactly seven rows, labelled S to F in this
    order, and each boundary column is strictly increasing along it. *)
Theorem letter_ranks_strictly_increasing :
  length LETTER_RANKS = 7
  /\ map rank LETTER_RANKS = rank_scale
  /\ StronglySorted
       (fun g h => F64.ltb (wasserstein_boundary g) (wasserstein_boundary h)
                   = true) LETTER_RANKS
  /\ StronglySorted
       (fun g h => F64.ltb (kolmogorov_smirnov_boundary g)
                           (kolmogorov_smirnov_boundary h) = true)
       LETTER_RANKS.
Proof.
  repeat split;
    unfold LETTER_RANKS;
    repeat (apply SSorted_cons; [|repeat (apply Forall_cons; [vm_compute; reflexivity|]); apply Forall_nil]);
    apply SSorted_nil.
Qed.

(** C9.  The classifier returns one of the seven labels for every pair of
    values, and ["F"] as soon as one of them is NaN. *)
Theorem letter_rank_total (w k : float) :
  In (_letter_rank_distance_statistics LETTER_RANKS w k) rank_scale
  /\ (F64.is_nan w = true \/ F64.is_nan k = true ->
      _letter_rank_distance_statistics LETTER_RANKS w k = "F").
Proof.
  split.
  - destruct (letter_rank_in w k LETTER_RANKS) as [-> | [g [Hg ->]]].
    + simpl; tauto.
    + apply (in_map rank) in Hg. exact Hg.
  - intros Hnan. apply letter_rank_no_match.
    apply Forall_forall. intros g _.
    destruct Hnan as [H | H]; apply is_nan_eq in H; subst.
    + rewrite ltb_nan_l. reflexivity.
    + rewrite ltb_nan_l. apply andb_false_r.
Qed.

Example rank_of_nan_wasserstein :
  _letter_rank_distance_statistics LETTER_RANKS F64.nan (F64.decimal 10 1000)
  = "F".
Proof. vm_compute. reflexivity. Qed.

(** ** Rescaling the table *)

Lemma qualifies_scaled (w k : float) (g g' : grade) :
  F64.leb (wasserstein_boundary g) (wasserstein_boundary g') = true ->
  F64.leb (kolmogorov_smirnov_boundary g) (kolmogorov_smirnov_boundary g') = true ->
  F64.ltb w (wasserstein_boundary g)
  && F64.ltb k (kolmogorov_smirnov_boundary g) = true ->
  F64.ltb w (wasserstein_boundary g')
  && F64.ltb k (kolmogorov_smirnov_boundary g') = true.
Proof.
  intros Hw Hk H. apply andb_true_iff in H as [H1 H2].
  apply andb_true_iff. split; eapply ltb_leb_trans; eassumption.
Qed.

(** On a table whose labels never get more lenient from one row to the next,
    and are no worse than the fallback, larger boundaries give a rank that is
    at most as severe. *)
Lemma rescaled_rank_le (w k : float) (table table' : list grade) :
  scaled_up table table' ->
  StronglySorted (fun g h => severity (rank g) <= severity (rank h)) table ->
  Forall (fun g => severity (rank g) <= severity "F") table ->
  severity (_letter_rank_distance_statistics table' w k)
  <= severity (_letter_rank_distance_statistics table w k).
Proof.
  induction 1 as [|g g' table table' [Hr [Hw Hk]] _ IH]; intros Hs Hf; simpl.
  - apply Nat.le_refl.
  - apply StronglySorted_inv in Hs as [Hs Hg].
    apply Forall_cons_iff in Hf as [HgF Hf].
    destruct (F64.ltb w (wasserstein_boundary g)
              && F64.ltb k (kolmogorov_smirnov_boundary g)) eqn:Hq.
    + rewrite (qualifies_scaled w k g g' Hw Hk Hq), Hr. apply Nat.le_refl.
    + destruct (F64.ltb w (wasserstein_boundary g')
                && F64.ltb k (kolmogorov_smirnov_boundary g')).
      * rewrite Hr.
        destruct (letter_rank_in w k table) as [-> | [h [Hh ->]]];
          [assumption|].
        rewrite Forall_forall in Hg. apply Hg. assumption.
      * apply IH; assumption.
Qed.

Lemma rank_scale_sorted (table : list grade) :
  map rank table = rank_scale ->
  StronglySorted (fun g h => severity (rank g) <= severity (rank h)) table
  /\ Forall (fun g => severity (rank g) <= severity "F") table.
Proof.
  unfold rank_scale. intros H.
  destruct table as [|g1 [|g2 [|g3 [|g4 [|g5 [|g6 [|g7 [|g8 t]]]]]]]];
    try discriminate H.
  injection H as H1 H2 H3 H4 H5 H6 H7.
  split.
  - repeat (apply SSorted_cons;
            [|repeat (apply Forall_cons;
                      [rewrite ?H1, ?H2, ?H3, ?H4, ?H5, ?H6, ?H7;
                       vm_compute; lia|]);
              apply Forall_nil]).
    apply SSorted_nil.
  - repeat (apply Forall_cons;
            [rewrite ?H1, ?H2, ?H3, ?H4, ?H5, ?H6, ?H7; vm_compute; lia|]).
    apply Forall_nil.
Qed.

(** C7.  For a table labelled S to F and a table obtained from it by
    replacing every boundary by a value at least as large, a pair of distance
    values never gets a stricter rank from the second table than from the
    first. *)
Theorem rescaled_table_never_stricter
    (w k : float) (table table' : list grade) :
  map rank table = rank_scale ->
  scaled_up table table' ->
  severity (_letter_rank_distance_statistics table' w k)
  <= severity (_letter_rank_distance_statistics table w k).
Proof.
  intros Hl Hs. destruct (rank_scale_sorted table Hl).
  apply rescaled_rank_le; assumption.
Qed.

(** ** Sorting *)

Lemma sorted_insert_perm (x : float) (l : list float) :
  Permutation (x :: l) (sorted_insert x l).
Proof.
  induction l as [|y l IH]; simpl; [apply Permutation_refl|].
  destruct (np_le x y); [apply Permutation_refl|].
  eapply perm_trans; [apply perm_swap|]. apply perm_skip. exact IH.
Qed.

Lemma np_sort_perm (l : list float) : Permutation l (np_sort l).
Proof.
  induction l as [|x l IH]; simpl; [apply perm_nil|].
  eapply perm_trans; [apply perm_skip; exact IH|]. apply sorted_insert_perm.
Qed.

Lemma np_sort_length (l : list float) : length (np_sort l) = length l.
Proof. symmetry. apply Permutation_length, np_sort_perm. Qed.

Lemma sorted_insert_sorted (x : float) (l : list float) :
  StronglySorted (fun a b => np_le a b = true) l ->
  StronglySorted (fun a b => np_le a b = true) (sorted_insert x l).
Proof.
  induction 1 as [|y l Hs IH Hy]; simpl.
  - apply SSorted_cons; [apply SSorted_nil | apply Forall_nil].
  - destruct (np_le x y) eqn:Hxy.
    + apply SSorted_cons; [apply SSorted_cons; assumption|].
      apply Forall_cons; [assumption|].
      eapply Forall_impl; [|exact Hy].
      intros z Hz. eapply np_le_trans; eassumption.
    + apply SSorted_cons; [exact IH|].
      eapply Permutation_Forall; [apply sorted_insert_perm|].
      apply Forall_cons; [apply np_le_total; assumption | assumption].
Qed.

Lemma np_sort_sorted (l : list float) :
  StronglySorted (fun a b => np_le a b = true) (np_sort l).
Proof.
  induction l as [|x l IH]; simpl;
    [apply SSorted_nil | apply sorted_insert_sorted; exact IH].
Qed.

(** ** Data frames *)

Lemma combine_ranked {A B : Type} (f : nat -> B) (d : A) (l : list A) (s : nat) :
  combine l (map f (seq s (length l)))
  = map (fun i => (nth (i - s) l d, f i)) (seq s (length l)).
Proof.
  revert s. induction l as [|x l IH]; intros s; simpl; [reflexivity|].
  rewrite Nat.sub_diag. f_equal. rewrite IH.
  apply map_ext_in. intros i Hi. apply in_seq in Hi.
  replace (i - s) with (S (i - S s)) by lia. reflexivity.
Qed.

Lemma DataFrame_probability (ms ps : list float) :
  length ms = length ps -> map probability (DataFrame ms ps) = ps.
Proof.
  unfold DataFrame. revert ps.
  induction ms as [|m ms IH]; intros [|p ps] H; simpl in *;
    try discriminate; [reflexivity|].
  f_equal. apply IH. lia.
Qed.

Lemma DataFrame_ranked (f : nat -> float) (l : list float) (n : nat) :
  length l = n ->
  DataFrame l (map f (seq 0 n))
  = map (fun i => Row (nth i l F64.nan) (f i)) (seq 0 n).
Proof.
  intros <-. unfold DataFrame.
  rewrite (combine_ranked f F64.nan), map_map.
  apply map_ext. intros i. simpl. rewrite Nat.sub_0_r. reflexivity.
Qed.

Lemma filter_probability (P : float -> bool) (rows : list row) :
  map probability (filter (fun r => P (probability r)) rows)
  = filter P (map probability rows).
Proof.
  induction rows as [|r rows IH]; simpl; [reflexivity|].
  destruct (P (probability r)); simpl; rewrite IH; reflexivity.
Qed.

Section EngineProperties.

Context {numpy : NumPy} {scipy : SciPy}.

(** ** Resampling *)

Lemma draw_length (population : list float) (size : nat) (g : RandomState) :
  length (fst (draw population size g)) = size.
Proof.
  revert g. induction size as [|size IH]; intros g; simpl; [reflexivity|].
  destruct (randint (length population) g) as [i g1].
  specialize (IH g1). destruct (draw population size g1) as [rest g2].
  simpl in *. rewrite IH. reflexivity.
Qed.

Lemma draw_from_population (population : list float) (size : nat) (g : RandomState) :
  population <> [] ->
  Forall (fun x => In x population) (fst (draw population size g)).
Proof.
  intros Hne. revert g.
  induction size as [|size IH]; intros g; simpl; [apply Forall_nil|].
  destruct (randint (length population) g) as [i g1].
  specialize (IH g1). destruct (draw population size g1) as [rest g2].
  simpl in *. apply Forall_cons; [|exact IH].
  apply nth_In. apply Nat.mod_upper_bound.
  destruct population; [congruence | discriminate].
Qed.

Lemma np_random_choice_ok (population : list float) (size : nat) (g : RandomState) :
  size <= length population ->
  np_random_choice population size g = inr (draw population size g).
Proof.
  unfold np_random_choice. intros H.
  destruct population, size; simpl in *; try reflexivity. lia.
Qed.

Lemma np_random_choice_cons
    (x : float) (population : list float) (size : nat) (g : RandomState) :
  np_random_choice (x :: population) size g
  = inr (draw (x :: population) size g).
Proof. destruct size; reflexivity. Qed.

Lemma normalize_raw_data_length (raw_data : list float) :
  length (normalize_raw_data raw_data) = length raw_data.
Proof. apply length_map. Qed.

(** ** The empirical distribution *)

Lemma empirical_distribution_ranked (raw_data : list float) :
  empirical_distribution raw_data
  = filter keeps
      (map (fun i => Row (nth i (np_sort (normalize_raw_data raw_data)) F64.nan)
                         (F64.div (F64.of_nat i)
                                  (F64.of_nat (length raw_data))))
           (seq 0 (length raw_data))).
Proof.
  unfold empirical_distribution, probabilities, np_arange.
  rewrite normalize_raw_data_length.
  rewrite DataFrame_ranked; [reflexivity|].
  rewrite np_sort_length. apply normalize_raw_data_length.
Qed.

Lemma empirical_distribution_probability (raw_data : list float) :
  map probability (empirical_distribution raw_data)
  = filter (fun p => negb (F64.geb p tail_cut))
           (map (fun i => F64.div (F64.of_nat i) (F64.of_nat (length raw_data)))
                (seq 0 (length raw_data))).
Proof.
  unfold empirical_distribution, keeps.
  rewrite (filter_probability (fun p => negb (F64.geb p tail_cut))).
  rewrite DataFrame_probability.
  - unfold probabilities, np_arange.
    rewrite normalize_raw_data_length. reflexivity.
  - unfold probabilities, np_arange.
    rewrite np_sort_length, length_map, length_seq. reflexivity.
Qed.

Lemma ecdf_run (sample_size : nat) (population : list float) (g : RandomState) :
  sample_size <= length population ->
  _calculate_empirical_cumulative_distribution_function sample_size population g
  = inr (empirical_distribution (fst (draw population sample_size g)),
         snd (draw population sample_size g)).
Proof.
  intros H.
  unfold _calculate_empirical_cumulative_distribution_function, bind, ret.
  rewrite np_random_choice_ok by assumption.
  destruct (draw population sample_size g). reflexivity.
Qed.

(** A construction is the two draws followed by the statistics of the two
    samples they give. *)
Lemma init_outcome (population_a population_b : list float) (g : RandomState) :
  let n := Nat.min (length population_a) (length population_b) in
  outcome (__init__ population_a population_b g)
  = analyse n
      (empirical_distribution (fst (draw population_a n g)))
      (empirical_distribution
         (fst (draw population_b n (snd (draw population_a n g))))).
Proof.
  intros n. unfold __init__. fold n. unfold bind at 1.
  rewrite ecdf_run by apply Nat.le_min_l.
  unfold bind at 1. rewrite ecdf_run by apply Nat.le_min_r.
  unfold analyse, bind, lift, ret, outcome.
  destruct (_calculate_wasserstein_distance_statistics _ _); [reflexivity|].
  destruct (_calculate_kolmogorov_smirnov_distance_statistics _ _) as [e|[d p]];
    reflexivity.
Qed.

Lemma analyse_samples (n : nat) (sa sb : list row) (self : Self.t) :
  analyse n sa sb = inr self ->
  Self.sample_size self = n /\ Self.sample_a self = sa /\ Self.sample_b self = sb.
Proof.
  unfold analyse.
  destruct (_calculate_wasserstein_distance_statistics _ _); [discriminate|].
  destruct (_calculate_kolmogorov_smirnov_distance_statistics _ _) as [e|[d p]];
    [discriminate|].
  intros H. injection H as <-. auto.
Qed.

(** The construction with the library calls written out. *)
Lemma init_statistics (population_a population_b : list float) (g : RandomState) :
  let n := Nat.min (length population_a) (length population_b) in
  let sample_a := empirical_distribution (fst (draw population_a n g)) in
  let sample_b :=
    empirical_distribution
      (fst (draw population_b n (snd (draw population_a n g)))) in
  outcome (__init__ population_a population_b g)
  = match wasserstein_distance (map measure sample_a) (map measure sample_b) with
    | inl e => inl e
    | inr wasserstein =>
        match ks_2samp (map measure sample_a) (map measure sample_b) with
        | inl e => inl e
        | inr (kolmogorov_smirnov_distance, kolmogorov_smirnov_probability) =>
            inr (Self.Build n sample_a sample_b
                   (np_round wasserstein 3)
                   (np_round kolmogorov_smirnov_distance 3)
                   kolmogorov_smirnov_probability
                   (_letter_rank_distance_statistics LETTER_RANKS
                      (np_round wasserstein 3)
                      (np_round kolmogorov_smirnov_distance 3)))
        end
    end.
Proof.
  intros n sample_a sample_b. rewrite init_outcome. fold n sample_a sample_b.
  unfold analyse, _calculate_wasserstein_distance_statistics,
    _calculate_kolmogorov_smirnov_distance_statistics.
  destruct (wasserstein_distance _ _); [reflexivity|].
  destruct (ks_2samp _ _) as [e|[d p]]; reflexivity.
Qed.

Lemma DataFrame_measure_incl (ms ps : list float) :
  incl (map measure (DataFrame ms ps)) ms.
Proof.
  unfold DataFrame. revert ps.
  induction ms as [|m ms IH]; intros [|p ps]; simpl.
  - intros x [].
  - intros x [].
  - intros x [].
  - intros x [<-|H]; [left; reflexivity | right; exact (IH ps x H)].
Qed.

(** Every measure of the sample is one of the normalized values. *)
Lemma empirical_distribution_measures (P : float -> Prop) (raw_data : list float) :
  Forall P (normalize_raw_data raw_data) ->
  Forall P (map measure (empirical_distribution raw_data)).
Proof.
  intros H. rewrite Forall_forall in *. intros y Hy. apply H.
  unfold empirical_distribution in Hy.
  apply in_map_iff in Hy. destruct Hy as [r [<- Hr]].
  apply filter_In in Hr. destruct Hr as [Hr _].
  apply (Permutation_in _ (Permutation_sym (np_sort_perm _))).
  apply (DataFrame_measure_incl _ (probabilities (length (normalize_raw_data raw_data)))).
  apply in_map. exact Hr.
Qed.

End EngineProperties.

Section EngineClaims.

Context {numpy : NumPy} {scipy : SciPy}.

(** C2.  The builder either fails in the draw (an empty population asked for
    at least one value) or returns a sample described as follows: the
    normalized resampled values are sorted ascending, the i-th smallest of
    them (from 0) gets the probability [i / sample_size], and the rows kept
    are exactly those whose probability is not [>= 0.96], in this order. *)
Theorem ecdf_sorted_ranked_trimmed
    (sample_size : nat) (population : list float) (g : RandomState) :
  match _calculate_empirical_cumulative_distribution_function
          sample_size population g with
  | inl _ => population = [] /\ sample_size <> 0
  | inr (sample, _) =>
      exists sorted : list float,
        Permutation
          (normalize_raw_data (fst (draw population sample_size g))) sorted
        /\ StronglySorted (fun x y => np_le x y = true) sorted
        /\ length sorted = sample_size
        /\ sample
           = filter (fun r => negb (F64.geb (probability r) tail_cut))
               (map (fun i => Row (nth i sorted F64.nan)
                                  (F64.div (F64.of_nat i)
                                           (F64.of_nat sample_size)))
                    (seq 0 sample_size))
        /\ (forall r, In r sample <->
              exists i, i < sample_size
                /\ r = Row (nth i sorted F64.nan)
                           (F64.div (F64.of_nat i) (F64.of_nat sample_size))
                /\ F64.geb (F64.div (F64.of_nat i) (F64.of_nat sample_size))
                           tail_cut = false)
  end.
Proof.
  unfold _calculate_empirical_cumulative_distribution_function, bind, ret.
  destruct population as [|x population].
  - destruct sample_size as [|n]; [|split; [reflexivity | discriminate]].
    exists []. simpl. repeat split; try constructor; try contradiction.
    intros [i [Hi _]]. lia.
  - rewrite np_random_choice_cons.
    set (pop := x :: population). set (size := sample_size).
    destruct (draw pop size g) as [raw g'] eqn:Hd.
    assert (Hlen : length raw = size)
      by (rewrite <- (draw_length pop size g), Hd; reflexivity).
    exists (np_sort (normalize_raw_data raw)).
    assert (Hs : empirical_distribution raw
                 = filter (fun r => negb (F64.geb (probability r) tail_cut))
                     (map (fun i => Row (nth i (np_sort (normalize_raw_data raw))
                                             F64.nan)
                                        (F64.div (F64.of_nat i) (F64.of_nat size)))
                          (seq 0 size)))
      by (rewrite empirical_distribution_ranked, Hlen; reflexivity).
    simpl fst. split; [apply np_sort_perm|].
    split; [apply np_sort_sorted|].
    split; [rewrite np_sort_length, normalize_raw_data_length; exact Hlen|].
    split; [exact Hs|].
    intros r. rewrite Hs, filter_In, in_map_iff. split.
    + intros [[i [<- Hi]] Hk]. apply in_seq in Hi. simpl in Hk.
      exists i. split; [lia|]. split; [reflexivity|].
      apply negb_true_iff. exact Hk.
    + intros [i [Hi [-> Hk]]]. split.
      * exists i. split; [reflexivity|]. apply in_seq. lia.
      * simpl. rewrite Hk. reflexivity.
Qed.

(** C3.  One sample size, the smaller of the two lengths, is computed at
    construction, and both draws are taken with replacement at exactly this
    size: both [np.random.choice] calls return, each with [n] values of its
    own population, the second from the generator state the first left; both
    builders return the sample built from their draw; and the construction
    is the statistics of these two samples, carrying [n] as its sample
    size. *)
Theorem shared_sample_size
    (population_a population_b : list float) (g : RandomState) :
  let n := Nat.min (length population_a) (length population_b) in
  exists raw_a g1 raw_b g2,
    np_random_choice population_a n g = inr (raw_a, g1)
    /\ np_random_choice population_b n g1 = inr (raw_b, g2)
    /\ length raw_a = n /\ length raw_b = n
    /\ Forall (fun x => In x population_a) raw_a
    /\ Forall (fun x => In x population_b) raw_b
    /\ _calculate_empirical_cumulative_distribution_function n population_a g
       = inr (empirical_distribution raw_a, g1)
    /\ _calculate_empirical_cumulative_distribution_function n population_b g1
       = inr (empirical_distribution raw_b, g2)
    /\ outcome (__init__ population_a population_b g)
       = match _calculate_wasserstein_distance_statistics
                 (empirical_distribution raw_a)
                 (empirical_distribution raw_b) with
         | inl e => inl e
         | inr wasserstein_d_value =>
             match _calculate_kolmogorov_smirnov_distance_statistics
                     (empirical_distribution raw_a)
                     (empirical_distribution raw_b) with
             | inl e => inl e
             | inr (ks_d_value, ks_p_value) =>
                 inr (Self.Build n
                        (empirical_distribution raw_a)
                        (empirical_distribution raw_b)
                        wasserstein_d_value ks_d_value ks_p_value
                        (_letter_rank_distance_statistics
                           LETTER_RANKS wasserstein_d_value ks_d_value))
             end
         end
    /\ forall self,
         outcome (__init__ population_a population_b g) = inr self ->
         Self.sample_size self = n
         /\ Self.sample_a self = empirical_distribution raw_a
         /\ Self.sample_b self = empirical_distribution raw_b.
Proof.
  intros n.
  assert (Ha : n <= length population_a) by apply Nat.le_min_l.
  assert (Hb : n <= length population_b) by apply Nat.le_min_r.
  exists (fst (draw population_a n g)), (snd (draw population_a n g)).
  set (g1 := snd (draw population_a n g)).
  exists (fst (draw population_b n g1)), (snd (draw population_b n g1)).
  repeat apply conj.
  - rewrite np_random_choice_ok by assumption.
    f_equal. apply surjective_pairing.
  - rewrite np_random_choice_ok by assumption.
    f_equal. apply surjective_pairing.
  - apply draw_length.
  - apply draw_length.
  - destruct population_a as [|x l].
    + replace n with 0 by (subst n; reflexivity). apply Forall_nil.
    + apply draw_from_population. discriminate.
  - destruct population_b as [|x l].
    + replace n with 0 by (subst n; simpl; lia). apply Forall_nil.
    + apply draw_from_population. discriminate.
  - apply ecdf_run. assumption.
  - apply ecdf_run. assumption.
  - exact (init_outcome population_a population_b g).
  - intros self H. rewrite init_outcome in H. apply analyse_samples in H.
    exact H.
Qed.

(** C10.  In a construction both builds succeed, and the two samples have
    the same length and the same probability column: the quotients
    [i / n] for [i] from 0 to [n - 1], [n] the shared sample size, that are
    not [>= 0.96]. *)
Theorem samples_share_probability_column
    (population_a population_b : list float) (g : RandomState) :
  let n := Nat.min (length population_a) (length population_b) in
  let column :=
    filter (fun p => negb (F64.geb p tail_cut))
           (map (fun i => F64.div (F64.of_nat i) (F64.of_nat n)) (seq 0 n)) in
  exists sample_a g1 sample_b g2,
    _calculate_empirical_cumulative_distribution_function n population_a g
    = inr (sample_a, g1)
    /\ _calculate_empirical_cumulative_distribution_function n population_b g1
       = inr (sample_b, g2)
    /\ length sample_a = length sample_b
    /\ map probability sample_a = column
    /\ map probability sample_b = column
    /\ forall self,
         outcome (__init__ population_a population_b g) = inr self ->
         Self.sample_a self = sample_a /\ Self.sample_b self = sample_b.
Proof.
  intros n column.
  assert (Ha : n <= length population_a) by apply Nat.le_min_l.
  assert (Hb : n <= length population_b) by apply Nat.le_min_r.
  set (g1 := snd (draw population_a n g)).
  set (raw_a := fst (draw population_a n g)).
  set (raw_b := fst (draw population_b n g1)).
  assert (Ca : map probability (empirical_distribution raw_a) = column)
    by (rewrite empirical_distribution_probability; unfold raw_a;
        rewrite draw_length; reflexivity).
  assert (Cb : map probability (empirical_distribution raw_b) = column)
    by (rewrite empirical_distribution_probability; unfold raw_b;
        rewrite draw_length; reflexivity).
  exists (empirical_distribution raw_a), g1,
    (empirical_distribution raw_b), (snd (draw population_b n g1)).
  split; [apply ecdf_run; assumption|].
  split; [apply ecdf_run; assumption|].
  split.
  { rewrite <- (length_map probability (empirical_distribution raw_a)),
      <- (length_map probability (empirical_distribution raw_b)), Ca, Cb.
    reflexivity. }
  split; [exact Ca|]. split; [exact Cb|].
  intros self H. rewrite init_outcome in H. apply analyse_samples in H.
  split; apply H.
Qed.

(** C8.  The generator enters a construction through the two draws only:
    two runs on the same populations whose draws return the same values end
    with the same object, or with the same exception. *)
Theorem identical_draws_identical_reports
    (population_a population_b : list float) (g g' : RandomState) :
  outcome (resampled population_a population_b g)
  = outcome (resampled population_a population_b g') ->
  outcome (__init__ population_a population_b g)
  = outcome (__init__ population_a population_b g').
Proof.
  intros H. rewrite 2 init_outcome.
  unfold resampled, bind, ret in H.
  rewrite 2 (np_random_choice_ok population_a) in H by apply Nat.le_min_l.
  destruct (draw population_a _ g) as [raw_a g1].
  destruct (draw population_a _ g') as [raw_a' g1'].
  rewrite 2 (np_random_choice_ok population_b) in H by apply Nat.le_min_r.
  simpl fst. simpl snd.
  destruct (draw population_b _ g1) as [raw_b g2].
  destruct (draw population_b _ g1') as [raw_b' g2'].
  simpl in *. injection H as -> ->. reflexivity.
Qed.

(** C4, as the code has it.  There is no degeneracy check: when the
    standard deviation of the draw is computed as zero, every normalized
    value is NaN or infinite (NaN where the value equals the computed mean),
    the builder returns the sample built from them, and a construction whose
    first draw this is passes these measures to SciPy: its outcome is the
    report made of what [wasserstein_distance] and [ks_2samp] return on
    them, or the exception one of the two raises. *)
Theorem zero_deviation_is_not_rejected (raw_data : list float) :
  F64.is_zero (np_std raw_data) = true ->
  length (normalize_raw_data raw_data) = length raw_data
  /\ Forall (fun y => F64.is_nan y || F64.is_infinity y = true)
            (normalize_raw_data raw_data)
  /\ (forall i x, nth_error raw_data i = Some x ->
        F64.is_zero (F64.sub x (np_mean raw_data)) = true ->
        nth_error (normalize_raw_data raw_data) i = Some F64.nan)
  /\ (forall population g,
        length raw_data <= length population ->
        fst (draw population (length raw_data) g) = raw_data ->
        exists g',
          _calculate_empirical_cumulative_distribution_function
            (length raw_data) population g
          = inr (empirical_distribution raw_data, g'))
  /\ (forall population_a population_b g,
        let n := Nat.min (length population_a) (length population_b) in
        let sample_a := empirical_distribution raw_data in
        let sample_b :=
          empirical_distribution
            (fst (draw population_b n (snd (draw population_a n g)))) in
        fst (draw population_a n g) = raw_data ->
        Forall (fun y => F64.is_nan y || F64.is_infinity y = true)
               (map measure sample_a)
        /\ outcome (__init__ population_a population_b g)
           = match wasserstein_distance
                     (map measure sample_a) (map measure sample_b) with
             | inl e => inl e
             | inr wasserstein =>
                 match ks_2samp (map measure sample_a) (map measure sample_b) with
                 | inl e => inl e
                 | inr (kolmogorov_smirnov_distance,
                        kolmogorov_smirnov_probability) =>
                     inr (Self.Build n sample_a sample_b
                            (np_round wasserstein 3)
                            (np_round kolmogorov_smirnov_distance 3)
                            kolmogorov_smirnov_probability
                            (_letter_rank_distance_statistics LETTER_RANKS
                               (np_round wasserstein 3)
                               (np_round kolmogorov_smirnov_distance 3)))
                 end
             end).
Proof.
  intros Hz.
  assert (Hn : Forall (fun y => F64.is_nan y || F64.is_infinity y = true)
                      (normalize_raw_data raw_data)).
  { unfold normalize_raw_data. apply Forall_map, Forall_forall. intros x _.
    destruct (np_std raw_data); try discriminate.
    destruct (F64.sub x (np_mean raw_data)); reflexivity. }
  split; [apply normalize_raw_data_length|]. split; [exact Hn|].
  split; [|split].
  - intros i x Hi Hx. unfold normalize_raw_data.
    rewrite nth_error_map, Hi. simpl. f_equal.
    destruct (np_std raw_data); try discriminate.
    destruct (F64.sub x (np_mean raw_data)); try discriminate. reflexivity.
  - intros population g Hlen Hd. eexists.
    rewrite ecdf_run by assumption. rewrite Hd. reflexivity.
  - intros population_a population_b g n sample_a sample_b Hd. split.
    + apply empirical_distribution_measures. exact Hn.
    + subst sample_a sample_b. rewrite <- Hd.
      exact (init_statistics population_a population_b g).
Qed.


End EngineClaims.

(** ** Exact quotients of small integers *)

Section Quotients.

Local Open Scope Z_scope.

Lemma digits2_pos_bounds (p : positive) :
  2 ^ (Zpos (digits2_pos p) - 1) <= Zpos p < 2 ^ Zpos (digits2_pos p).
Proof.
  induction p as [p IH|p IH|]; simpl digits2_pos.
  - rewrite Pos2Z.inj_succ, Z.pow_succ_r by lia.
    replace (Z.succ (Zpos (digits2_pos p)) - 1)
      with (Z.succ (Zpos (digits2_pos p) - 1)) by lia.
    rewrite Z.pow_succ_r by lia. rewrite (Pos2Z.inj_xI p).
    set (a := 2 ^ (Zpos (digits2_pos p) - 1)) in *.
    set (b := 2 ^ Zpos (digits2_pos p)) in *. clearbody a b. lia.
  - rewrite Pos2Z.inj_succ, Z.pow_succ_r by lia.
    replace (Z.succ (Zpos (digits2_pos p)) - 1)
      with (Z.succ (Zpos (digits2_pos p) - 1)) by lia.
    rewrite Z.pow_succ_r by lia. rewrite (Pos2Z.inj_xO p).
    set (a := 2 ^ (Zpos (digits2_pos p) - 1)) in *.
    set (b := 2 ^ Zpos (digits2_pos p)) in *. clearbody a b. lia.
  - simpl. lia.
Qed.

Lemma digits2_pos_unique (p : positive) (d : Z) :
  2 ^ (d - 1) <= Zpos p < 2 ^ d -> Zpos (digits2_pos p) = d.
Proof.
  intros [Hl Hu]. destruct (digits2_pos_bounds p) as [Bl Bu].
  assert (0 < d).
  { destruct (Z_lt_le_dec 0 d) as [|Hd]; [assumption|].
    assert (2 ^ d <= 2 ^ 0) by (apply Z.pow_le_mono_r; lia).
    simpl in *. lia. }
  assert (Zpos (digits2_pos p) - 1 < d).
  { apply (Z.pow_lt_mono_r_iff 2); lia. }
  assert (d - 1 < Zpos (digits2_pos p)).
  { apply (Z.pow_lt_mono_r_iff 2); lia. }
  lia.
Qed.

Lemma Zdigits2_53 (q : Z) : 2 ^ 52 <= q < 2 ^ 53 -> Zdigits2 q = 53.
Proof.
  intros H. destruct q as [|p|p]; try (simpl in H; lia).
  simpl. apply digits2_pos_unique. exact H.
Qed.

Lemma Zdigits2_54 (q : Z) : 2 ^ 53 <= q < 2 ^ 54 -> Zdigits2 q = 54.
Proof.
  intros H. destruct q as [|p|p]; try (simpl in H; lia).
  simpl. apply digits2_pos_unique. exact H.
Qed.

Lemma shr_fexp_keep (q e : Z) (l : location) :
  Zdigits2 q = 53 -> -1074 <= e ->
  shr_fexp F64.prec F64.emax q e l = (shr_record_of_loc q l, e).
Proof.
  intros Hd He. unfold shr_fexp. rewrite Hd.
  unfold fexp, emin, F64.prec, F64.emax.
  replace (Z.max (53 + e - 53) (3 - 1024 - 53) - e) with 0 by lia.
  reflexivity.
Qed.

Lemma shr_fexp_halve (q e : Z) (l : location) :
  Zdigits2 q = 54 -> -1075 <= e ->
  shr_fexp F64.prec F64.emax q e l = (shr_1 (shr_record_of_loc q l), e + 1).
Proof.
  intros Hd He. unfold shr_fexp. rewrite Hd.
  unfold fexp, emin, F64.prec, F64.emax.
  replace (Z.max (54 + e - 53) (3 - 1024 - 53) - e) with 1 by lia.
  reflexivity.
Qed.

Lemma loc_of_shr_record_of_loc (q : Z) (l : location) :
  loc_of_shr_record (shr_record_of_loc q l) = l.
Proof. destruct l as [|[ | | ]]; reflexivity. Qed.

Lemma shr_m_of_loc (q : Z) (l : location) : shr_m (shr_record_of_loc q l) = q.
Proof. destruct l as [|[ | | ]]; reflexivity. Qed.

(** Rounding a mantissa of 53 bits: the mantissa or its successor, and one
    more shift when the successor needs 54 bits. *)
Lemma binary_round_aux_53 (q e : Z) (l : location) :
  2 ^ 52 <= q < 2 ^ 53 -> -1074 <= e <= 900 ->
  let q' := round_nearest_even q l in
  binary_round_aux F64.prec F64.emax false q e l
  = if q' =? 2 ^ 53 then S754_finite false (Z.to_pos (2 ^ 52)) (e + 1)
    else S754_finite false (Z.to_pos q') e.
Proof.
  intros Hq He q'. unfold binary_round_aux.
  rewrite shr_fexp_keep by (try apply Zdigits2_53; lia).
  rewrite loc_of_shr_record_of_loc, shr_m_of_loc. fold q'.
  assert (Hq' : q' = q \/ q' = q + 1).
  { unfold q', round_nearest_even.
    destruct l as [|[ | | ]]; auto. destruct (Z.even q); auto. }
  destruct (Z.eqb_spec q' (2 ^ 53)) as [E|NE].
  - rewrite E. rewrite shr_fexp_halve by (reflexivity || lia).
    change (shr_m (shr_1 (shr_record_of_loc (2 ^ 53) loc_Exact)))
      with (Zpos (Z.to_pos (2 ^ 52))).
    cbv iota beta.
    replace (e + 1 <=? F64.emax - F64.prec) with true
      by (symmetry; apply Z.leb_le; unfold F64.emax, F64.prec; lia).
    reflexivity.
  - rewrite shr_fexp_keep by (try apply Zdigits2_53; lia).
    rewrite shr_m_of_loc.
    destruct q' as [|p|p]; try lia.
    replace (e <=? F64.emax - F64.prec) with true
      by (symmetry; apply Z.leb_le; unfold F64.emax, F64.prec; lia).
    reflexivity.
Qed.

Lemma halve_round (q : Z) (l : location) :
  0 < q ->
  let mrs := shr_1 (shr_record_of_loc q l) in
  let q' := round_nearest_even (shr_m mrs) (loc_of_shr_record mrs) in
  q' = Z.div2 q \/ (q' = Z.div2 q + 1 /\ Z.odd q = true).
Proof.
  intros Hq. destruct q as [|p|p]; try lia.
  destruct p as [p|p|]; destruct l as [|[ | | ]]; simpl; auto;
    match goal with
    | |- context [if ?b then _ else _] => destruct b; auto
    end.
Qed.

(** Rounding a mantissa of 54 bits: half the mantissa, or its successor when
    the bit shifted out is set; one more shift when that needs 54 bits. *)
Lemma binary_round_aux_54 (q e : Z) (l : location) :
  2 ^ 53 <= q < 2 ^ 54 -> -1075 <= e <= 900 ->
  let mrs := shr_1 (shr_record_of_loc q l) in
  let q' := round_nearest_even (shr_m mrs) (loc_of_shr_record mrs) in
  binary_round_aux F64.prec F64.emax false q e l
  = if q' =? 2 ^ 53 then S754_finite false (Z.to_pos (2 ^ 52)) (e + 2)
    else S754_finite false (Z.to_pos q') (e + 1).
Proof.
  intros Hq He mrs q'. unfold binary_round_aux.
  rewrite shr_fexp_halve by (try apply Zdigits2_54; lia).
  fold mrs. fold q'.
  assert (Hq' : 2 ^ 52 <= q' <= 2 ^ 53).
  { assert (Hpos : 0 < q) by lia.
    pose proof (halve_round q l Hpos) as Hh. cbv zeta in Hh.
    fold mrs in Hh. fold q' in Hh.
    pose proof (Z.div2_odd q) as Hd.
    destruct Hh as [E | [E _]]; rewrite E;
      destruct (Z.odd q); simpl Z.b2z in Hd; lia. }
  destruct (Z.eqb_spec q' (2 ^ 53)) as [E|NE].
  - rewrite E. rewrite shr_fexp_halve by (reflexivity || lia).
    change (shr_m (shr_1 (shr_record_of_loc (2 ^ 53) loc_Exact)))
      with (Zpos (Z.to_pos (2 ^ 52))).
    cbv iota beta.
    replace (e + 1 + 1 <=? F64.emax - F64.prec) with true
      by (symmetry; apply Z.leb_le; unfold F64.emax, F64.prec; lia).
    f_equal. lia.
  - rewrite shr_fexp_keep by (try apply Zdigits2_53; lia).
    rewrite shr_m_of_loc.
    destruct q' as [|p|p]; try lia.
    replace (e + 1 <=? F64.emax - F64.prec) with true
      by (symmetry; apply Z.leb_le; unfold F64.emax, F64.prec; lia).
    reflexivity.
Qed.


Lemma bits_bounds (k : Z) : 0 < k -> 2 ^ (bits k - 1) <= k < 2 ^ bits k.
Proof.
  intros Hk. unfold bits. replace (Z.log2 k + 1 - 1) with (Z.log2 k) by lia.
  replace (Z.log2 k + 1) with (Z.succ (Z.log2 k)) by lia.
  apply Z.log2_spec. exact Hk.
Qed.

Lemma bits_pos (k : Z) : 0 < k -> 0 < bits k.
Proof. intros Hk. unfold bits. pose proof (Z.log2_nonneg k). lia. Qed.

Lemma bits_le (k : Z) (d : Z) : 0 < k -> k < 2 ^ d -> bits k <= d.
Proof.
  intros Hk Hd. destruct (bits_bounds k Hk) as [Hl _].
  assert (0 <= d).
  { destruct (Z_lt_le_dec d 0) as [Hn|]; [|assumption].
    rewrite (Z.pow_neg_r 2 d Hn) in Hd. lia. }
  assert (bits k - 1 < d) by (apply (Z.pow_lt_mono_r_iff 2); lia).
  lia.
Qed.


Lemma mantissa_bounds (k : Z) :
  0 < k < 2 ^ 53 -> 2 ^ 52 <= mantissa k < 2 ^ 53.
Proof.
  intros [Hk Hu]. unfold mantissa.
  pose proof (bits_bounds k Hk) as [Bl Bu].
  pose proof (bits_pos k Hk) as Bp.
  pose proof (bits_le k 53 Hk Hu) as Bs.
  replace (2 ^ 52) with (2 ^ (bits k - 1) * 2 ^ (53 - bits k))
    by (rewrite <- Z.pow_add_r by lia; f_equal; lia).
  replace (2 ^ 53) with (2 ^ bits k * 2 ^ (53 - bits k))
    by (rewrite <- Z.pow_add_r by lia; f_equal; lia).
  assert (0 < 2 ^ (53 - bits k)) by (apply Z.pow_pos_nonneg; lia).
  split; [apply Z.mul_le_mono_nonneg_r | apply Z.mul_lt_mono_pos_r]; lia.
Qed.

Lemma iter_xO (p : positive) (s : positive) :
  Zpos (Pos.iter xO p s) = Zpos p * 2 ^ Zpos s.
Proof.
  induction s as [|s IH] using Pos.peano_ind.
  - simpl. lia.
  - rewrite Pos.iter_succ, (Pos2Z.inj_xO (Pos.iter xO p s)), IH.
    rewrite Pos2Z.inj_succ, Z.pow_succ_r by lia. lia.
Qed.

(** [float(k)] is exact below [2 ^ 53]. *)
Lemma of_Z_exact (k : Z) :
  0 < k < 2 ^ 53 ->
  F64.of_Z k = S754_finite false (Z.to_pos (mantissa k)) (bits k - 53).
Proof.
  intros Hk. pose proof (mantissa_bounds k Hk) as Hm.
  destruct k as [|p|p]; try lia.
  unfold F64.of_Z, binary_normalize, binary_round.
  assert (Hd : Zpos (digits2_pos p) = bits (Zpos p)).
  { apply digits2_pos_unique. apply bits_bounds. lia. }
  pose proof (bits_le (Zpos p) 53 (proj1 Hk) (proj2 Hk)) as Hs.
  rewrite Hd. unfold fexp, emin, F64.prec, F64.emax.
  replace (Z.max (bits (Zpos p) + 0 - 53) (3 - 1024 - 53))
    with (bits (Zpos p) - 53) by lia.
  assert (Ha : shl_align p 0 (bits (Zpos p) - 53)
               = (Z.to_pos (mantissa (Zpos p)), bits (Zpos p) - 53)).
  { unfold shl_align, mantissa.
    destruct (bits (Zpos p) - 53 - 0) as [|s|s] eqn:Es; try lia.
    - replace (53 - bits (Zpos p)) with 0 by lia.
      replace (bits (Zpos p) - 53) with 0 by lia.
      rewrite Z.mul_1_r. reflexivity.
    - f_equal. apply Pos2Z.inj. rewrite iter_xO.
      replace (53 - bits (Zpos p)) with (Zpos s) by lia.
      rewrite Z2Pos.id; [reflexivity|].
      apply Z.mul_pos_pos; [lia | apply Z.pow_pos_nonneg; lia]. }
  rewrite Ha.
  rewrite Z2Pos.id by lia.
  pose proof (binary_round_aux_53 (mantissa (Zpos p)) (bits (Zpos p) - 53)
                loc_Exact Hm) as Hr.
  unfold F64.prec, F64.emax in Hr. rewrite Hr.
  - change (round_nearest_even (mantissa (Zpos p)) loc_Exact)
      with (mantissa (Zpos p)).
    destruct (Z.eqb_spec (mantissa (Zpos p)) (2 ^ 53)); [lia | reflexivity].
  - pose proof (bits_pos (Zpos p) (proj1 Hk)). lia.
Qed.

Lemma SFdiv_core_normalized (m1 e1 m2 e2 : Z) :
  2 ^ 52 <= m1 < 2 ^ 53 -> 2 ^ 52 <= m2 < 2 ^ 53 -> -60 <= e1 - e2 <= 60 ->
  SFdiv_core_binary F64.prec F64.emax m1 e1 m2 e2
  = (m1 * 2 ^ 53 / m2, e1 - e2 - 53,
     new_location m2 ((m1 * 2 ^ 53) mod m2)).
Proof.
  intros H1 H2 He. unfold SFdiv_core_binary.
  rewrite (Zdigits2_53 m1 H1), (Zdigits2_53 m2 H2).
  unfold fexp, emin, F64.prec, F64.emax.
  replace (Z.min (Z.max (53 + e1 - (53 + e2) - 53) (3 - 1024 - 53)) (e1 - e2))
    with (e1 - e2 - 53) by lia.
  replace (e1 - e2 - (e1 - e2 - 53)) with 53 by lia.
  cbv iota. rewrite Z.shiftl_mul_pow2 by lia.
  unfold Z.div, Z.modulo.
  destruct (Z.div_eucl (m1 * 2 ^ 53) m2). reflexivity.
Qed.

(** The quotient of two integers below [2 ^ 53], as the division computes
    it: the integer quotient of the scaled mantissas, rounded. *)
Lemma div_of_Z (i n : Z) :
  0 < i < 2 ^ 53 -> 0 < n < 2 ^ 53 ->
  F64.div (F64.of_Z i) (F64.of_Z n)
  = binary_round_aux F64.prec F64.emax false
      (mantissa i * 2 ^ 53 / mantissa n)
      (bits i - bits n - 53)
      (new_location (mantissa n) ((mantissa i * 2 ^ 53) mod mantissa n)).
Proof.
  intros Hi Hn.
  pose proof (mantissa_bounds i Hi) as Mi.
  pose proof (mantissa_bounds n Hn) as Mn.
  pose proof (bits_pos i (proj1 Hi)). pose proof (bits_pos n (proj1 Hn)).
  pose proof (bits_le i 53 (proj1 Hi) (proj2 Hi)).
  pose proof (bits_le n 53 (proj1 Hn) (proj2 Hn)).
  rewrite (of_Z_exact i Hi), (of_Z_exact n Hn).
  unfold F64.div, SFdiv.
  rewrite 2 Z2Pos.id by lia.
  rewrite SFdiv_core_normalized by lia.
  simpl xorb. f_equal. lia.
Qed.

(** When the rounding goes up, the remainder is at least half the divisor. *)
Lemma round_up_remainder (q b r : Z) :
  0 < b -> 0 <= r ->
  round_nearest_even q (new_location b r) = q
  \/ (round_nearest_even q (new_location b r) = q + 1 /\ b <= 2 * r).
Proof.
  intros Hb Hr.
  unfold new_location, new_location_even, new_location_odd, round_nearest_even.
  destruct (Z.even b); destruct (Z.eqb_spec r 0); auto.
  - destruct (2 * r ?= b) eqn:E; auto.
    + apply Z.compare_eq_iff in E.
      destruct (Z.even q); auto. right. split; [reflexivity | lia].
    + apply Z.compare_gt_iff in E. right. split; [reflexivity | lia].
  - destruct (2 * r + 1 ?= b) eqn:E; auto.
    apply Z.compare_gt_iff in E. right. split; [reflexivity | lia].
Qed.


Lemma tail_cut_value : tail_cut = S754_finite false cut_mantissa (-53).
Proof. vm_compute. reflexivity. Qed.

Lemma compare_tail_cut (m : positive) (e : Z) :
  SFcompare (S754_finite false m e) tail_cut
  = Some (match e ?= -53 with
          | Eq => Pos.compare m cut_mantissa
          | c => c
          end).
Proof.
  rewrite tail_cut_value. unfold SFcompare.
  rewrite SFcompare_cont_compare. destruct (e ?= -53); reflexivity.
Qed.

(** A rounded quotient with a small exponent is below the cut. *)
Lemma round_below_cut (q e : Z) (l : location) :
  (-1074 <= e <= -55 /\ 2 ^ 52 <= q < 2 ^ 54)
  \/ (e = -54 /\ 2 ^ 52 <= q < 2 ^ 53) ->
  SFcompare (binary_round_aux F64.prec F64.emax false q e l) tail_cut = Some Lt.
Proof.
  intros H.
  assert (Hc : (Z.to_pos (2 ^ 52) ?= cut_mantissa)%positive = Lt) by reflexivity.
  destruct (Z_lt_le_dec q (2 ^ 53)) as [Hq|Hq].
  - rewrite binary_round_aux_53 by lia. cbv zeta.
    destruct (_ =? 2 ^ 53); rewrite compare_tail_cut.
    + destruct (Z.compare_spec (e + 1) (-53)); try lia; congruence.
    + destruct (Z.compare_spec e (-53)); try lia; reflexivity.
  - rewrite binary_round_aux_54 by lia. cbv zeta.
    destruct (_ =? 2 ^ 53); rewrite compare_tail_cut.
    + destruct (Z.compare_spec (e + 2) (-53)); try lia; congruence.
    + destruct (Z.compare_spec (e + 1) (-53)); try lia; reflexivity.
Qed.

Lemma compare_at_cut_exponent (p : positive) :
  SFcompare (S754_finite false p (-53)) tail_cut
  = Some (Pos.compare p cut_mantissa).
Proof. rewrite compare_tail_cut, Z.compare_refl. reflexivity. Qed.

Lemma compare_carry :
  SFcompare (S754_finite false (Z.to_pos (2 ^ 52)) (-53 + 1)) tail_cut
  = Some (2 ^ 53 ?= Zpos cut_mantissa).
Proof. vm_compute. reflexivity. Qed.

(** A rounded mantissa at the exponent of the cut compares as the
    mantissas do; a carry puts it above. *)
Lemma round_at_cut (q' : Z) :
  2 ^ 52 <= q' <= 2 ^ 53 ->
  SFcompare (if q' =? 2 ^ 53
             then S754_finite false (Z.to_pos (2 ^ 52)) (-53 + 1)
             else S754_finite false (Z.to_pos q') (-53)) tail_cut
  = Some (q' ?= Zpos cut_mantissa).
Proof.
  intros Hq.
  destruct (Z.eqb_spec q' (2 ^ 53)) as [E|NE].
  - rewrite E. apply compare_carry.
  - destruct q' as [|p|p]; try lia. apply compare_at_cut_exponent.
Qed.

(** The integer arithmetic behind the comparison: [q] is the quotient of
    [i * 2 ^ 53] by [n], [q'] the rounded mantissa. *)
Lemma cut_decision_53 (i n q r q' : Z) :
  0 <= i -> 0 < n < 2 ^ 48 ->
  i * 2 ^ 53 = n * q + r -> 0 <= r < n ->
  q' = q \/ (q' = q + 1 /\ n <= 2 * r) ->
  (q' < Zpos cut_mantissa <-> 25 * i < 24 * n).
Proof.
  intros Hi Hn Ht Hr Hq'. unfold cut_mantissa.
  change (2 ^ 53) with 9007199254740992 in Ht.
  change (2 ^ 48) with 281474976710656 in Hn.
  destruct (Z_lt_le_dec q 8646911284551351) as [Hq|Hq].
  - assert (n * q <= n * 8646911284551350)
      by (apply Z.mul_le_mono_nonneg_l; lia).
    split; intros; destruct Hq' as [E|[E _]]; lia.
  - destruct (Z_lt_le_dec q 8646911284551352) as [Hq2|Hq2].
    + assert (q = 8646911284551351) by lia. subst q.
      split; intros; destruct Hq' as [E|[E Hh]]; lia.
    + assert (n * 8646911284551352 <= n * q)
        by (apply Z.mul_le_mono_nonneg_l; lia).
      split; intros; destruct Hq' as [E|[E _]]; lia.
Qed.

(** The same when the quotient of [i * 2 ^ 54] by [n] has 54 bits and is
    halved before it is rounded. *)
Lemma cut_decision_54 (i n q r q' : Z) :
  0 <= i -> 0 < n < 2 ^ 48 ->
  i * 2 ^ 54 = n * q + r -> 0 <= r < n -> 0 <= q ->
  q' = Z.div2 q \/ (q' = Z.div2 q + 1 /\ Z.odd q = true) ->
  (q' < Zpos cut_mantissa <-> 25 * i < 24 * n).
Proof.
  intros Hi Hn Ht Hr Hq0 Hq'. unfold cut_mantissa.
  change (2 ^ 54) with 18014398509481984 in Ht.
  change (2 ^ 48) with 281474976710656 in Hn.
  pose proof (Z.div2_odd q) as Hd.
  destruct (Z_lt_le_dec q 17293822569102703) as [Hq|Hq].
  - assert (n * q <= n * 17293822569102702)
      by (apply Z.mul_le_mono_nonneg_l; lia).
    split; intros; destruct Hq' as [E|[E Ho]];
      try rewrite Ho in Hd; destruct (Z.odd q); simpl Z.b2z in Hd; lia.
  - destruct (Z_lt_le_dec q 17293822569102704) as [Hq2|Hq2].
    + assert (q = 17293822569102703) by lia. subst q.
      change (Z.div2 17293822569102703) with 8646911284551351 in Hq'.
      split; intros; destruct Hq' as [E|[E _]]; lia.
    + assert (n * 17293822569102704 <= n * q)
        by (apply Z.mul_le_mono_nonneg_l; lia).
      split; intros; destruct Hq' as [E|[E Ho]];
        try rewrite Ho in Hd; destruct (Z.odd q); simpl Z.b2z in Hd; lia.
Qed.

Lemma mantissa_scaled (i n : Z) :
  0 < i -> 0 < n -> bits i <= bits n <= 53 ->
  let c := 2 ^ (53 - bits n) in
  let t := i * 2 ^ (bits n - bits i) * 2 ^ 53 in
  mantissa i * 2 ^ 53 = t * c /\ mantissa n = n * c /\ 0 < c.
Proof.
  intros Hi Hn Hb c t. unfold mantissa, t, c.
  pose proof (bits_pos i Hi).
  replace (53 - bits i) with ((bits n - bits i) + (53 - bits n)) by lia.
  rewrite Z.pow_add_r by lia.
  split; [ring|]. split; [reflexivity|]. apply Z.pow_pos_nonneg; lia.
Qed.

Lemma bits_mono (i n : Z) : 0 < i -> i <= n -> bits i <= bits n.
Proof.
  intros Hi Hn. unfold bits. pose proof (Z.log2_le_mono i n Hn). lia.
Qed.

(** The quotient [i / n] of two integers with [0 <= i < n < 2 ^ 48], as
    binary64 computes it, is below the literal [0.96] exactly when
    [25 * i < 24 * n]; it is never NaN. *)
Theorem quotient_compare_cut (i n : Z) :
  0 <= i < n -> n < 2 ^ 48 ->
  exists c, SFcompare (F64.div (F64.of_Z i) (F64.of_Z n)) tail_cut = Some c
            /\ (c = Lt <-> 25 * i < 24 * n).
Proof.
  intros Hin Hn48.
  assert (Hn : 0 < n < 2 ^ 53) by lia.
  destruct (Z.eq_dec i 0) as [->|Hi0].
  { exists Lt. rewrite (of_Z_exact n Hn).
    split; [reflexivity | split; [lia | reflexivity]]. }
  assert (Hi : 0 < i < 2 ^ 53) by lia.
  rewrite (div_of_Z i n Hi Hn).
  pose proof (bits_mono i n (proj1 Hi) (Z.lt_le_incl _ _ (proj2 Hin))) as Hk.
  pose proof (bits_le n 53 (proj1 Hn) (proj2 Hn)) as Hb53.
  pose proof (bits_pos i (proj1 Hi)) as Hbi.
  destruct (mantissa_scaled i n (proj1 Hi) (proj1 Hn) (conj Hk Hb53))
    as [Ea [Eb Hc]].
  set (k := bits n - bits i) in *.
  set (c := 2 ^ (53 - bits n)) in *.
  set (t := i * 2 ^ k * 2 ^ 53) in *.
  rewrite Ea, Eb.
  rewrite Z.div_mul_cancel_r by lia.
  rewrite Z.mul_mod_distr_r by lia.
  set (q := t / n). set (r := t mod n).
  assert (Ht : t = n * q + r) by (apply Z.div_mod; lia).
  assert (Hr : 0 <= r < n) by (apply Z.mod_pos_bound; lia).
  replace (bits i - bits n - 53) with (- k - 53) by (unfold k; lia).
  assert (Hk2 : 0 < 2 ^ k) by (apply Z.pow_pos_nonneg; lia).
  (* the integer quotient has 53 or 54 bits *)
  pose proof (bits_bounds i (proj1 Hi)) as [Bil Biu].
  pose proof (bits_bounds n (proj1 Hn)) as [Bnl Bnu].
  assert (Hik : 2 ^ (bits n - 1) <= i * 2 ^ k < 2 ^ bits n).
  { assert (E1 : 2 ^ (bits n - 1) = 2 ^ (bits i - 1) * 2 ^ k)
      by (rewrite <- Z.pow_add_r by (unfold k; lia); f_equal; unfold k; lia).
    assert (E2 : 2 ^ bits n = 2 ^ bits i * 2 ^ k)
      by (rewrite <- Z.pow_add_r by (unfold k; lia); f_equal; unfold k; lia).
    rewrite E1, E2.
    split; [apply Z.mul_le_mono_nonneg_r | apply Z.mul_lt_mono_pos_r]; lia. }
  assert (Hn2 : 2 ^ bits n = 2 * 2 ^ (bits n - 1)).
  { replace (bits n) with (Z.succ (bits n - 1)) at 1 by lia.
    apply Z.pow_succ_r. pose proof (bits_pos n (proj1 Hn)). lia. }
  assert (Hq : 2 ^ 52 <= q < 2 ^ 54).
  { unfold q. split.
    - apply Z.div_le_lower_bound; [lia|]. unfold t. nia.
    - apply Z.div_lt_upper_bound; [lia|]. unfold t. nia. }
  assert (Hqn : n * q <= t < n * q + n) by lia.
  assert (Hup : round_nearest_even q (new_location (n * c) (r * c)) = q
                \/ (round_nearest_even q (new_location (n * c) (r * c)) = q + 1
                    /\ n <= 2 * r)).
  { destruct (round_up_remainder q (n * c) (r * c)) as [E|[E Hh]];
      [nia | nia | auto |]. right. split; [exact E | nia]. }
  destruct (Z_le_gt_dec 2 k) as [Hk2'|Hk1].
  { (* the quotient is below one half *)
    exists Lt. split.
    - apply round_below_cut. left. unfold k in *. lia.
    - split; [intros _|reflexivity].
      assert (2 ^ (bits i + 1) <= 2 ^ (bits n - 1))
        by (apply Z.pow_le_mono_r; unfold k in *; lia).
      rewrite Z.pow_add_r in H by lia. lia. }
  assert (Hk01 : k = 0 \/ k = 1) by (unfold k in *; lia).
  assert (Et : k = 0 /\ t = i * 2 ^ 53 \/ k = 1 /\ t = i * 2 ^ 54).
  { destruct Hk01 as [K|K]; [left | right]; (split; [exact K|]);
      unfold t; rewrite K.
    - rewrite Z.pow_0_r. ring.
    - change (2 ^ 1) with 2. change (2 ^ 54) with (2 * 2 ^ 53). ring. }
  clearbody t k. clear Hk01.
  destruct (Z_lt_le_dec q (2 ^ 53)) as [Hq53|Hq53].
  - destruct Et as [[-> Et]|[-> Et]].
    + (* same number of bits: the exponent of the cut *)
      rewrite binary_round_aux_53 by lia. cbv zeta.
      change (- 0 - 53 + 1) with (-53 + 1). change (- 0 - 53) with (-53).
      rewrite round_at_cut by (destruct Hup as [E|[E _]]; rewrite E; lia).
      eexists. split; [reflexivity|].
      rewrite Z.compare_lt_iff.
      assert (Ht53 : i * 2 ^ 53 = n * q + r) by congruence.
      exact (cut_decision_53 i n q r _ (proj1 Hin) (conj (proj1 Hn) Hn48)
               Ht53 Hr Hup).
    + exists Lt. split; [apply round_below_cut; right; lia|].
      split; [intros _|reflexivity].
      assert (n * q <= n * (2 ^ 53 - 1))
        by (apply Z.mul_le_mono_nonneg_l; lia).
      lia.
  - destruct Et as [[-> Et]|[-> Et]].
    + exfalso.
      assert (n * 2 ^ 53 <= n * q) by (apply Z.mul_le_mono_nonneg_l; lia).
      lia.
    + rewrite binary_round_aux_54 by lia. cbv zeta.
      change (- 1 - 53 + 2) with (-53 + 1). change (- 1 - 53 + 1) with (-53).
      assert (Hpos : 0 < q) by lia.
      pose proof (halve_round q (new_location (n * c) (r * c)) Hpos) as Hh.
      cbv zeta in Hh. pose proof (Z.div2_odd q) as Hd.
      set (q' := round_nearest_even _ _) in *.
      rewrite round_at_cut
        by (destruct Hh as [E|[E Ho]]; rewrite E; try rewrite Ho in Hd;
            destruct (Z.odd q); simpl Z.b2z in Hd; lia).
      eexists. split; [reflexivity|].
      rewrite Z.compare_lt_iff.
      assert (Ht54 : i * 2 ^ 54 = n * q + r) by congruence.
      exact (cut_decision_54 i n q r _ (proj1 Hin) (conj (proj1 Hn) Hn48)
               Ht54 Hr (Z.lt_le_incl _ _ Hpos) Hh).
Qed.

(** The quotient of two positive integers below [2 ^ 53] is a finite,
    positive float. *)
Lemma div_of_Z_finite (i n : Z) :
  0 < i < 2 ^ 53 -> 0 < n < 2 ^ 53 ->
  exists m e, F64.div (F64.of_Z i) (F64.of_Z n) = S754_finite false m e.
Proof.
  intros Hi Hn. rewrite (div_of_Z i n Hi Hn).
  pose proof (mantissa_bounds i Hi) as Mi.
  pose proof (mantissa_bounds n Hn) as Mn.
  pose proof (bits_pos i (proj1 Hi)). pose proof (bits_pos n (proj1 Hn)).
  pose proof (bits_le i 53 (proj1 Hi) (proj2 Hi)).
  pose proof (bits_le n 53 (proj1 Hn) (proj2 Hn)).
  set (q := mantissa i * 2 ^ 53 / mantissa n).
  assert (Hq : 2 ^ 52 <= q < 2 ^ 54).
  { unfold q. split.
    - apply Z.div_le_lower_bound; lia.
    - apply Z.div_lt_upper_bound; lia. }
  destruct (Z_lt_le_dec q (2 ^ 53)).
  - rewrite binary_round_aux_53 by lia. cbv zeta.
    destruct (_ =? 2 ^ 53); eexists; eexists; reflexivity.
  - rewrite binary_round_aux_54 by lia. cbv zeta.
    destruct (_ =? 2 ^ 53); eexists; eexists; reflexivity.
Qed.

End Quotients.

(** ** More on the rank classifier *)

Lemma ltb_trans (x y z : float) :
  F64.ltb x y = true -> F64.ltb y z = true -> F64.ltb x z = true.
Proof.
  unfold F64.ltb, SFltb.
  destruct (SFcompare x y) as [[ | | ]|] eqn:Exy; try discriminate.
  destruct (SFcompare y z) as [[ | | ]|] eqn:Eyz; try discriminate.
  rewrite (SFcompare_lt_trans _ _ _ Exy Eyz). reflexivity.
Qed.

Lemma leb_ltb_trans (x y z : float) :
  F64.leb x y = true -> F64.ltb y z = true -> F64.ltb x z = true.
Proof.
  unfold F64.ltb, F64.leb, SFltb, SFleb.
  destruct (SFcompare x y) as [[ | | ]|] eqn:Exy; try discriminate;
    destruct (SFcompare y z) as [[ | | ]|] eqn:Eyz; try discriminate; intros _ _.
  - rewrite (SFcompare_eq_lt _ _ _ Exy Eyz). reflexivity.
  - rewrite (SFcompare_lt_trans _ _ _ Exy Eyz). reflexivity.
Qed.

(** The scan returns the fallback after no row qualified, or the label of a
    row that qualifies. *)
Lemma letter_rank_qualifying (w k : float) (table : list grade) :
  (_letter_rank_distance_statistics table w k = "F"
   /\ Forall (fun h => F64.ltb w (wasserstein_boundary h)
                       && F64.ltb k (kolmogorov_smirnov_boundary h) = false)
             table)
  \/ exists g, In g table
       /\ F64.ltb w (wasserstein_boundary g)
          && F64.ltb k (kolmogorov_smirnov_boundary g) = true
       /\ _letter_rank_distance_statistics table w k = rank g.
Proof.
  induction table as [|g table IH]; simpl; [left; split; auto|].
  destruct (F64.ltb w (wasserstein_boundary g)
            && F64.ltb k (kolmogorov_smirnov_boundary g)) eqn:Hq.
  - right. exists g. auto.
  - destruct IH as [[IH Hf] | [h [Hh [Hqh IH]]]].
    + left. split; [assumption | apply Forall_cons; assumption].
    + right. exists h. auto.
Qed.

(** On a table whose labels never get more lenient, a qualifying row bounds
    the rank. *)
Lemma qualifying_row_bounds_rank (w k : float) (table : list grade) (g : grade) :
  StronglySorted (fun g h => severity (rank g) <= severity (rank h)) table ->
  In g table ->
  F64.ltb w (wasserstein_boundary g)
  && F64.ltb k (kolmogorov_smirnov_boundary g) = true ->
  severity (_letter_rank_distance_statistics table w k) <= severity (rank g).
Proof.
  induction 1 as [|h table Hs IH Hh]; intros Hin Hq; [contradiction|].
  simpl. destruct (F64.ltb w (wasserstein_boundary h)
                   && F64.ltb k (kolmogorov_smirnov_boundary h)) eqn:Hqh.
  - destruct Hin as [->|Hin]; [apply Nat.le_refl|].
    rewrite Forall_forall in Hh. apply Hh, Hin.
  - destruct Hin as [->|Hin]; [congruence|]. apply IH; assumption.
Qed.

(** In [LETTER_RANKS] a row that is no more severe has boundaries that are
    no larger. *)
Lemma letter_ranks_boundaries_monotone (h g : grade) :
  In h LETTER_RANKS -> In g LETTER_RANKS ->
  severity (rank h) <= severity (rank g) ->
  F64.leb (wasserstein_boundary h) (wasserstein_boundary g) = true
  /\ F64.leb (kolmogorov_smirnov_boundary h) (kolmogorov_smirnov_boundary g)
     = true.
Proof.
  assert (H : forallb (fun h => forallb (fun g =>
                implb (severity (rank h) <=? severity (rank g))
                      (F64.leb (wasserstein_boundary h) (wasserstein_boundary g)
                       && F64.leb (kolmogorov_smirnov_boundary h)
                                  (kolmogorov_smirnov_boundary g)))
                LETTER_RANKS) LETTER_RANKS = true)
    by (vm_compute; reflexivity).
  intros Hh Hg Hle.
  rewrite forallb_forall in H. specialize (H h Hh).
  rewrite forallb_forall in H. specialize (H g Hg).
  apply Nat.leb_le in Hle. rewrite Hle in H. simpl in H.
  apply andb_true_iff in H. exact H.
Qed.

Lemma severity_scale (s : string) : In s rank_scale -> severity s <= 6.
Proof.
  unfold rank_scale. simpl.
  intros [<-|[<-|[<-|[<-|[<-|[<-|[<-|[]]]]]]]]; vm_compute; lia.
Qed.

Lemma letter_rank_severity_le (w k : float) :
  severity (_letter_rank_distance_statistics LETTER_RANKS w k) <= 6.
Proof.
  apply severity_scale.
  destruct (letter_rank_in w k LETTER_RANKS) as [-> | [g [Hg ->]]].
  - simpl; tauto.
  - apply (in_map rank) in Hg. exact Hg.
Qed.

(** A rank at most as severe as a row before the last one: both values are
    below that row's boundaries. *)
Lemma rank_at_most (w k : float) (j : nat) (g : grade) :
  j < 6 -> nth_error LETTER_RANKS j = Some g ->
  (severity (_letter_rank_distance_statistics LETTER_RANKS w k) <= j
   <-> F64.ltb w (wasserstein_boundary g)
       && F64.ltb k (kolmogorov_smirnov_boundary g) = true).
Proof.
  intros Hj Hg.
  assert (Hsev : severity (rank g) = j).
  { revert Hg. do 6 (destruct j as [|j]; [intros H; injection H as <-;
                                           reflexivity|]). lia. }
  pose proof (nth_error_In _ _ Hg) as Hin.
  destruct (rank_scale_sorted LETTER_RANKS eq_refl) as [Hs _].
  split.
  - intros Hle.
    destruct (letter_rank_qualifying w k LETTER_RANKS)
      as [[E _] | [h [Hh [Hq E]]]]; rewrite E in Hle.
    + change (severity "F") with 6 in Hle. lia.
    + destruct (letter_ranks_boundaries_monotone h g Hh Hin) as [Lw Lk];
        [lia|].
      apply andb_true_iff in Hq as [Hw Hk]. apply andb_true_iff.
      split; eapply ltb_leb_trans; eassumption.
  - intros Hq. rewrite <- Hsev.
    apply qualifying_row_bounds_rank; assumption.
Qed.

(** X1.  The rank is at most as severe as one of the rows S to E exactly
    when both distance values are strictly below that row's boundaries; so a
    rank of S or A means [wasserstein < 0.060] and [ks < 0.150]. *)
Theorem rank_no_worse_than_row (w k : float) (j : nat) (g : grade) :
  j < 6 -> nth_error LETTER_RANKS j = Some g ->
  (severity (_letter_rank_distance_statistics LETTER_RANKS w k) <= j
   <-> F64.ltb w (wasserstein_boundary g) = true
       /\ F64.ltb k (kolmogorov_smirnov_boundary g) = true).
Proof.
  intros Hj Hg. rewrite (rank_at_most w k j g Hj Hg). apply andb_true_iff.
Qed.

(** X2.  The classifier grades by the worse of the two metrics: the rank of a
    pair is the more severe of the rank the Wasserstein value gets with a KS
    value of zero and the rank the KS value gets with a Wasserstein value of
    zero. *)
Theorem rank_is_worse_of_two_metrics (w k : float) :
  severity (_letter_rank_distance_statistics LETTER_RANKS w k)
  = Nat.max
      (severity (_letter_rank_distance_statistics LETTER_RANKS w (F64.of_Z 0)))
      (severity (_letter_rank_distance_statistics LETTER_RANKS (F64.of_Z 0) k)).
Proof.
  set (x := severity (_letter_rank_distance_statistics LETTER_RANKS w k)).
  set (a := severity (_letter_rank_distance_statistics LETTER_RANKS w (F64.of_Z 0))).
  set (b := severity (_letter_rank_distance_statistics LETTER_RANKS (F64.of_Z 0) k)).
  assert (Hx : x <= 6) by apply letter_rank_severity_le.
  assert (Ha : a <= 6) by apply letter_rank_severity_le.
  assert (Hb : b <= 6) by apply letter_rank_severity_le.
  assert (H : forall j, j < 6 -> (x <= j <-> a <= j /\ b <= j)).
  { intros j Hj.
    destruct (nth_error LETTER_RANKS j) as [g|] eqn:Hg;
      [|apply nth_error_None in Hg; simpl in Hg; lia].
    unfold x, a, b. rewrite !(rank_at_most _ _ j g Hj Hg).
    assert (Hz : F64.ltb (F64.of_Z 0) (wasserstein_boundary g) = true
                 /\ F64.ltb (F64.of_Z 0) (kolmogorov_smirnov_boundary g) = true).
    { revert Hg. do 6 (destruct j as [|j]; [intros H; injection H as <-;
                                             split; vm_compute; reflexivity|]).
      lia. }
    destruct Hz as [Zw Zk]. rewrite Zw, Zk, andb_true_r, andb_true_iff.
    simpl. tauto. }
  pose proof (H 0). pose proof (H 1). pose proof (H 2). pose proof (H 3).
  pose proof (H 4). pose proof (H 5). lia.
Qed.

(** X3.  The last row of the table has no effect: a pair that fails the E row
    is ranked F whether or not it is below the F row's boundaries
    (0.250 and 0.340). *)
Theorem last_row_is_redundant (w k : float) :
  _letter_rank_distance_statistics LETTER_RANKS w k
  = _letter_rank_distance_statistics (removelast LETTER_RANKS) w k.
Proof.
  unfold LETTER_RANKS.
  cbn [removelast _letter_rank_distance_statistics rank
       wasserstein_boundary kolmogorov_smirnov_boundary].
  repeat match goal with
         | |- context [if ?b then _ else _] => destruct b; try reflexivity
         end.
Qed.

(** X4.  Larger distances never get a better rank: when neither value
    decreases, the rank does not get more lenient. *)
Theorem rank_monotone_in_distances (w k w' k' : float) :
  F64.leb w w' = true -> F64.leb k k' = true ->
  severity (_letter_rank_distance_statistics LETTER_RANKS w k)
  <= severity (_letter_rank_distance_statistics LETTER_RANKS w' k').
Proof.
  intros Hw Hk.
  destruct (rank_scale_sorted LETTER_RANKS eq_refl) as [Hs Hf].
  destruct (letter_rank_qualifying w' k' LETTER_RANKS)
    as [[E _] | [h [Hh [Hq E]]]]; rewrite E.
  - apply letter_rank_severity_le.
  - apply qualifying_row_bounds_rank; try assumption.
    apply andb_true_iff in Hq as [Qw Qk]. apply andb_true_iff.
    split; eapply leb_ltb_trans; eassumption.
Qed.

(** ** More on the empirical distribution *)

Lemma np_le_refl (x : float) : np_le x x = true.
Proof.
  unfold np_le, F64.leb, SFleb.
  destruct (SFcompare_refl x) as [E|E]; rewrite E.
  - destruct x; simpl in *; try discriminate; try reflexivity;
      destruct s; discriminate.
  - apply orb_true_r.
Qed.

Lemma filter_map_comm {A B : Type} (p : B -> bool) (f : A -> B) (l : list A) :
  filter p (map f l) = map f (filter (fun x => p (f x)) l).
Proof.
  induction l as [|x l IH]; simpl; [reflexivity|].
  destruct (p (f x)); simpl; rewrite IH; reflexivity.
Qed.

Lemma filter_seq_below (n k : nat) :
  k <= n -> filter (fun i => i <? k) (seq 0 n) = seq 0 k.
Proof.
  revert k. induction n as [|n IH]; intros k Hk.
  - replace k with 0 by lia. reflexivity.
  - rewrite seq_S, filter_app. simpl.
    destruct (Nat.ltb_spec n k) as [Hn|Hn].
    + replace k with (S n) by lia. rewrite seq_S. simpl. f_equal.
      rewrite <- (IH n (Nat.le_refl n)) at 2.
      apply filter_ext_in. intros i Hi. apply in_seq in Hi.
      destruct (Nat.ltb_spec i (S n)), (Nat.ltb_spec i n); try lia; reflexivity.
    + rewrite app_nil_r. apply IH. lia.
Qed.

Lemma map_nth_seq {A : Type} (d : A) (l : list A) (k : nat) :
  k <= length l -> map (fun i => nth i l d) (seq 0 k) = firstn k l.
Proof.
  revert k. induction l as [|x l IH]; intros k Hk; simpl in *.
  - replace k with 0 by lia. reflexivity.
  - destruct k as [|k]; [reflexivity|]. simpl. f_equal.
    rewrite <- seq_shift, map_map. apply IH. lia.
Qed.

(** The literal [0.96] is a positive number: zero and NaN are not
    [>= 0.96]. *)
Lemma geb_zero_quotient (y : float) :
  F64.geb (F64.div (S754_zero false) y) tail_cut = false.
Proof.
  rewrite tail_cut_value. destruct y as [s|s| |s m e]; try reflexivity;
    destruct s; reflexivity.
Qed.

Lemma kept_spec (i n : nat) : i < (24 * n + 24) / 25 <-> 25 * i < 24 * n.
Proof.
  pose proof (Nat.Div0.mul_div_le (24 * n + 24) 25).
  pose proof (Nat.mul_succ_div_gt (24 * n + 24) 25).
  lia.
Qed.

Lemma dropped_spec (n : nat) :
  (24 * n + 24) / 25 <= n /\ n - (24 * n + 24) / 25 = n / 25.
Proof.
  pose proof (Nat.Div0.mul_div_le (24 * n + 24) 25).
  pose proof (Nat.mul_succ_div_gt (24 * n + 24) 25).
  pose proof (Nat.Div0.mul_div_le n 25).
  pose proof (Nat.mul_succ_div_gt n 25).
  lia.
Qed.

(** The comparison the row filter makes, in integers. *)
Lemma keeps_quotient (i n : nat) :
  i < n -> (Z.of_nat n < 2 ^ 48)%Z ->
  negb (F64.geb (F64.div (F64.of_nat i) (F64.of_nat n)) tail_cut)
  = (i <? (24 * n + 24) / 25).
Proof.
  intros Hi Hn. unfold F64.of_nat, F64.geb, SFleb.
  destruct (quotient_compare_cut (Z.of_nat i) (Z.of_nat n)) as [c [Hc Hlt]];
    [lia | exact Hn |].
  rewrite (SFcompare_antisym _ _ _ Hc).
  pose proof (kept_spec i n) as Hs.
  destruct (Nat.ltb_spec i ((24 * n + 24) / 25)) as [Hk|Hk].
  - assert (E : c = Lt) by (apply Hlt; lia). subst c. reflexivity.
  - destruct c; try reflexivity.
    assert (25 * Z.of_nat i < 24 * Z.of_nat n)%Z by (apply Hlt; reflexivity).
    lia.
Qed.

Section SampleProperties.

Context {numpy : NumPy}.

(** X5.  For a draw of fewer than [2 ^ 48] values the trimmed sample is the
    sorted, ranked sample cut after its first [ceil(24 n / 25)] rows: the
    [floor(n / 25)] largest values are dropped, and the measures kept are
    the smallest ones in ascending order. *)
Theorem trimmed_sample_is_prefix (raw_data : list float) :
  (Z.of_nat (length raw_data) < 2 ^ 48)%Z ->
  let n := length raw_data in
  let kept := (24 * n + 24) / 25 in
  let sorted := np_sort (normalize_raw_data raw_data) in
  empirical_distribution raw_data
  = map (fun i => Row (nth i sorted F64.nan)
                      (F64.div (F64.of_nat i) (F64.of_nat n)))
        (seq 0 kept)
  /\ map measure (empirical_distribution raw_data) = firstn kept sorted
  /\ length (empirical_distribution raw_data) = kept
  /\ n - kept = n / 25.
Proof.
  intros Hn n kept sorted.
  assert (Hk : kept <= n) by apply dropped_spec.
  assert (E : empirical_distribution raw_data
              = map (fun i => Row (nth i sorted F64.nan)
                                  (F64.div (F64.of_nat i) (F64.of_nat n)))
                    (seq 0 kept)).
  { rewrite empirical_distribution_ranked. fold n. fold sorted.
    rewrite filter_map_comm. f_equal.
    rewrite <- (filter_seq_below n kept Hk).
    apply filter_ext_in. intros i Hi. apply in_seq in Hi.
    unfold keeps. simpl. apply keeps_quotient; [lia | exact Hn]. }
  split; [exact E|]. rewrite E. split; [|split].
  - rewrite map_map. simpl. apply map_nth_seq.
    unfold sorted. rewrite np_sort_length, normalize_raw_data_length. exact Hk.
  - rewrite length_map, length_seq. reflexivity.
  - apply dropped_spec.
Qed.

(** X6.  The trimmed sample of a non-empty draw is never empty: its first
    row is the smallest normalized value, with the probability [0 / n],
    whatever the size of the draw. *)
Theorem smallest_value_is_kept (raw_data : list float) :
  raw_data <> [] ->
  exists first rest,
    empirical_distribution raw_data = first :: rest
    /\ hd_error (np_sort (normalize_raw_data raw_data)) = Some (measure first)
    /\ probability first
       = F64.div (F64.of_nat 0) (F64.of_nat (length raw_data))
    /\ Forall (fun y => np_le (measure first) y = true)
              (normalize_raw_data raw_data).
Proof.
  intros Hne. rewrite empirical_distribution_ranked.
  pose proof (np_sort_perm (normalize_raw_data raw_data)) as Hp.
  pose proof (np_sort_sorted (normalize_raw_data raw_data)) as Hs.
  pose proof (np_sort_length (normalize_raw_data raw_data)) as Hl.
  rewrite normalize_raw_data_length in Hl.
  destruct raw_data as [|x raw]; [congruence|].
  destruct (np_sort (normalize_raw_data (x :: raw))) as [|m sorted];
    [discriminate|].
  cbn [length seq map filter nth]. unfold keeps at 1. cbn [probability].
  change (F64.of_nat 0) with (S754_zero false).
  rewrite geb_zero_quotient. cbn [negb].
  eexists. eexists. split; [reflexivity|]. cbn [measure probability].
  split; [reflexivity|]. split; [reflexivity|].
  apply StronglySorted_inv in Hs as [_ Hm].
  eapply Permutation_Forall; [apply Permutation_sym, Hp|].
  apply Forall_cons; [apply np_le_refl | exact Hm].
Qed.

Lemma filter_rows_sorted (p : row -> bool) (ms ps : list float) :
  StronglySorted (fun a b => np_le a b = true) ms ->
  StronglySorted (fun a b => np_le a b = true)
    (map measure (filter p (DataFrame ms ps)))
  /\ incl (map measure (filter p (DataFrame ms ps))) ms.
Proof.
  unfold DataFrame. revert ps.
  induction ms as [|m ms IH]; intros ps Hs; simpl.
  - split; [apply SSorted_nil | apply incl_nil_l].
  - destruct ps as [|q ps]; simpl;
      [split; [apply SSorted_nil | apply incl_nil_l]|].
    apply StronglySorted_inv in Hs as [Hs Hm].
    destruct (IH ps Hs) as [Is Ii].
    destruct (p (Row m q)); simpl.
    + split.
      * apply SSorted_cons; [exact Is|].
        rewrite Forall_forall in *. intros y Hy. apply Hm, Ii, Hy.
      * apply incl_cons; [left; reflexivity | apply incl_tl, Ii].
    + split; [exact Is | apply incl_tl, Ii].
Qed.

(** X7.  The measures of a trimmed sample are in ascending order (NaN
    last), each of them is a normalized value of the draw, and the sample is
    no longer than the draw. *)
Theorem trimmed_sample_sorted (raw_data : list float) :
  StronglySorted (fun a b => np_le a b = true)
    (map measure (empirical_distribution raw_data))
  /\ incl (map measure (empirical_distribution raw_data))
          (normalize_raw_data raw_data)
  /\ length (empirical_distribution raw_data) <= length raw_data.
Proof.
  unfold empirical_distribution.
  destruct (filter_rows_sorted keeps
              (np_sort (normalize_raw_data raw_data))
              (probabilities (length (normalize_raw_data raw_data)))
              (np_sort_sorted _)) as [Hs Hi].
  split; [exact Hs|]. split.
  - intros y Hy. apply Hi in Hy.
    eapply Permutation_in; [apply Permutation_sym, np_sort_perm | exact Hy].
  - eapply Nat.le_trans; [apply filter_length_le|].
    unfold DataFrame. rewrite length_map, length_combine, np_sort_length,
      normalize_raw_data_length.
    apply Nat.le_min_l.
Qed.

End SampleProperties.

(** ** Reading result files *)

Section WranglersProperties.

Import Wranglers.
Context {python : Python}.

Lemma run_id_eqb_eq (a b : run_id) : run_id_eqb a b = true <-> a = b.
Proof.
  destruct a as [s|z], b as [t|w]; simpl.
  - rewrite String.eqb_eq. split; [intros ->; reflexivity | congruence].
  - split; discriminate.
  - split; discriminate.
  - rewrite Z.eqb_eq. split; [intros ->; reflexivity | congruence].
Qed.

Lemma run_id_eqb_refl (a : run_id) : run_id_eqb a a = true.
Proof. apply run_id_eqb_eq. reflexivity. Qed.

Lemma run_id_eqb_neq (a b : run_id) : run_id_eqb a b = false <-> a <> b.
Proof.
  rewrite <- run_id_eqb_eq. destruct (run_id_eqb a b); split; congruence.
Qed.

Lemma lookup_store_same (key : run_id) (x : float) (ts act : cell) (data : dict) :
  lookup key (store key x ts act data)
  = Some (match lookup key data with
          | None => Series [x] [ts] [act]
          | Some s => Series (response_times s ++ [x]) (timestamps s ++ [ts])
                             (actions s ++ [act])
          end).
Proof.
  induction data as [|[k s] data IH]; simpl.
  - rewrite run_id_eqb_refl. reflexivity.
  - destruct (run_id_eqb key k) eqn:E; simpl; rewrite E; [reflexivity | exact IH].
Qed.

Lemma lookup_store_other (key key' : run_id) (x : float) (ts act : cell)
    (data : dict) :
  run_id_eqb key' key = false ->
  lookup key' (store key x ts act data) = lookup key' data.
Proof.
  intros Hne. induction data as [|[k s] data IH]; simpl.
  - rewrite Hne. reflexivity.
  - destruct (run_id_eqb key k) eqn:E; simpl.
    + apply run_id_eqb_eq in E. subst k. rewrite Hne. reflexivity.
    + rewrite IH. reflexivity.
Qed.

Lemma keys_store (key : run_id) (x : float) (ts act : cell) (data : dict) :
  map fst (store key x ts act data)
  = if existsb (run_id_eqb key) (map fst data) then map fst data
    else map fst data ++ [key].
Proof.
  induction data as [|[k s] data IH]; simpl; [reflexivity|].
  destruct (run_id_eqb key k) eqn:E; simpl; [reflexivity|].
  rewrite IH. destruct (existsb (run_id_eqb key) (map fst data)); reflexivity.
Qed.

Lemma add_chunk_app (data : dict) (c1 c2 : list line) :
  add_chunk_to_json data (c1 ++ c2)
  = match add_chunk_to_json data c1 with
    | inl e => inl e
    | inr data' => add_chunk_to_json data' c2
    end.
Proof.
  revert data. induction c1 as [|l c1 IH]; intros data; simpl; [reflexivity|].
  destruct (add_line data l); [reflexivity | apply IH].
Qed.

Lemma convert_csv_to_json_concat (data : dict) (file : list (list line)) :
  convert_csv_to_json data file = add_chunk_to_json data (concat file).
Proof.
  revert data. induction file as [|chunk file IH]; intros data; simpl;
    [reflexivity|].
  rewrite add_chunk_app. destruct (add_chunk_to_json data chunk);
    [reflexivity | apply IH].
Qed.

(** The two ways a row fails. *)
Lemma parse_response_time_error (l : line) (e : exception) :
  parse_response_time l = inl e <->
  (e = AttributeError /\ forall s, response_time l <> Str s)
  \/ (e = ValueError
      /\ exists s, response_time l = Str s
                   /\ float_of_str (replace_comma s) = None).
Proof.
  unfold parse_response_time. destruct (response_time l) as [s|z|x|b].
  - destruct (float_of_str (replace_comma s)) eqn:E; split.
    + discriminate.
    + intros [[_ H]|[_ [t [Ht Hn]]]]; [elim (H s); reflexivity|].
      injection Ht as <-. congruence.
    + intros H. injection H as <-. right. split; [reflexivity|].
      exists s. split; [reflexivity | exact E].
    + intros [[_ H]|[-> _]]; [elim (H s) |]; reflexivity.
  - split.
    + intros H. injection H as <-. left. split; [reflexivity | discriminate].
    + intros [[-> _]|[_ [t [Ht _]]]]; [reflexivity | discriminate].
  - split.
    + intros H. injection H as <-. left. split; [reflexivity | discriminate].
    + intros [[-> _]|[_ [t [Ht _]]]]; [reflexivity | discriminate].
  - split.
    + intros H. injection H as <-. left. split; [reflexivity | discriminate].
    + intros [[-> _]|[_ [t [Ht _]]]]; [reflexivity | discriminate].
Qed.

(** A chunk fails at its first row that fails, with the exception of that
    row, whatever the dictionary holds. *)
Lemma add_chunk_outcome (data : dict) (lines : list line) :
  match add_chunk_to_json data lines with
  | inl e =>
      exists before l after,
        lines = before ++ l :: after
        /\ Forall (fun r => exists x, parse_response_time r = inr x) before
        /\ parse_response_time l = inl e
  | inr _ => Forall (fun l => exists x, parse_response_time l = inr x) lines
  end.
Proof.
  revert data. induction lines as [|l lines IH]; intros data; simpl.
  - apply Forall_nil.
  - unfold add_line. destruct (parse_response_time l) as [e|x] eqn:E.
    + exists [], l, lines. split; [reflexivity|].
      split; [apply Forall_nil | exact E].
    + specialize (IH (store (runid l) x (timestamp l) (action l) data)).
      destruct (add_chunk_to_json _ lines).
      * destruct IH as [before [r [after [-> [Hb Hr]]]]].
        exists (l :: before), r, after. split; [reflexivity|].
        split; [|exact Hr]. apply Forall_cons; [eauto | exact Hb].
      * apply Forall_cons; [eauto | exact IH].
Qed.

(** X8.  The conversion is one pass over the rows of the chunks, in order,
    the dictionary kept from chunk to chunk: it returns what
    [add_chunk_to_json] returns, from an empty dictionary, on the rows of
    all chunks one after the other, each row with the cells its chunk
    gave it. *)
Theorem conversion_is_one_pass_over_rows (file : list (list line)) :
  ConvertCsvResultsIntoDictionary file = add_chunk_to_json [] (concat file).
Proof. apply convert_csv_to_json_concat. Qed.


Lemma parsed_times_cons (l : line) (rows : list line) (x : float) :
  parse_response_time l = inr x ->
  parsed_times (l :: rows) = x :: parsed_times rows.
Proof. intros H. unfold parsed_times. simpl. rewrite H. reflexivity. Qed.

(** What a chunk adds under a key: the rows of the chunk with that run id,
    after what was there. *)
Lemma add_chunk_lookup (data data' : dict) (lines : list line) (key : run_id) :
  add_chunk_to_json data lines = inr data' ->
  let rows := filter (fun l => run_id_eqb key (runid l)) lines in
  lookup key data'
  = match lookup key data, rows with
    | None, [] => None
    | None, _ =>
        Some (Series (parsed_times rows) (map timestamp rows) (map action rows))
    | Some s, _ =>
        Some (Series (response_times s ++ parsed_times rows)
                     (timestamps s ++ map timestamp rows)
                     (actions s ++ map action rows))
    end.
Proof.
  revert data. induction lines as [|l lines IH]; intros data H; simpl in *.
  - injection H as <-. destruct (lookup key data) as [[r t a]|]; [|reflexivity].
    simpl. rewrite !app_nil_r. reflexivity.
  - unfold add_line in H.
    destruct (parse_response_time l) as [e|x] eqn:E; [discriminate|].
    specialize (IH _ H). cbv zeta in IH. rewrite IH. clear IH H.
    destruct (run_id_eqb key (runid l)) eqn:K.
    + apply run_id_eqb_eq in K. subst key.
      rewrite lookup_store_same, (parsed_times_cons _ _ _ E).
      destruct (lookup (runid l) data) as [[r t a]|]; simpl.
      * rewrite <- !app_assoc. reflexivity.
      * destruct (filter _ lines); reflexivity.
    + rewrite lookup_store_other by exact K. reflexivity.
Qed.

(** X10.  After a conversion the value under a run id holds the response
    times, timestamps and actions of the rows with that run id, in the order
    of the file; a run id without a row is not a key. *)
Theorem rows_grouped_by_run_id
    (file : list (list line)) (data : dict) (key : run_id) :
  ConvertCsvResultsIntoDictionary file = inr data ->
  let rows := filter (fun l => run_id_eqb key (runid l)) (concat file) in
  lookup key data
  = match rows with
    | [] => None
    | _ => Some (Series (parsed_times rows)
                        (map timestamp rows) (map action rows))
    end.
Proof.
  unfold ConvertCsvResultsIntoDictionary. rewrite convert_csv_to_json_concat.
  intros H. apply (add_chunk_lookup [] data (concat file) key H).
Qed.

Lemma store_aligned (key : run_id) (x : float) (ts act : cell) (data : dict) :
  Forall (fun ks => aligned (snd ks)) data ->
  Forall (fun ks => aligned (snd ks)) (store key x ts act data).
Proof.
  induction 1 as [|[k s] data [H1 H2] Hd IH]; simpl.
  - apply Forall_cons; [split; reflexivity | apply Forall_nil].
  - destruct (run_id_eqb key k).
    + apply Forall_cons; [|exact Hd]. simpl in *.
      split; simpl; rewrite !length_app; simpl; lia.
    + apply Forall_cons; [split; assumption | exact IH].
Qed.

Lemma add_chunk_aligned (data data' : dict) (lines : list line) :
  Forall (fun ks => aligned (snd ks)) data ->
  add_chunk_to_json data lines = inr data' ->
  Forall (fun ks => aligned (snd ks)) data'.
Proof.
  revert data. induction lines as [|l lines IH]; intros data Hd H; simpl in H.
  - injection H as <-. exact Hd.
  - unfold add_line in H. destruct (parse_response_time l); [discriminate|].
    eapply IH; [|exact H]. apply store_aligned, Hd.
Qed.

(** X11.  After a conversion the three lists under every run id have the same
    length: the i-th response time, timestamp and action come from one
    row. *)
Theorem converted_series_aligned (file : list (list line)) (data : dict) :
  ConvertCsvResultsIntoDictionary file = inr data ->
  Forall (fun ks => aligned (snd ks)) data.
Proof.
  unfold ConvertCsvResultsIntoDictionary. rewrite convert_csv_to_json_concat.
  apply add_chunk_aligned. apply Forall_nil.
Qed.

Lemma existsb_eqb_In (key : run_id) (l : list run_id) :
  existsb (run_id_eqb key) l = true <-> In key l.
Proof.
  rewrite existsb_exists. split.
  - intros [x [Hx E]]. apply run_id_eqb_eq in E. subst. exact Hx.
  - intros H. exists key. split; [exact H | apply run_id_eqb_refl].
Qed.

Lemma add_chunk_keys (lines : list line) (data : dict) :
  add_chunk_to_json [] lines = inr data ->
  map fst data = rev (nodup run_id_eq_dec (rev (map runid lines))).
Proof.
  revert data. induction lines as [|l lines IH] using rev_ind; intros data H.
  - injection H as <-. reflexivity.
  - rewrite add_chunk_app in H.
    destruct (add_chunk_to_json [] lines) as [e|d]; [discriminate|].
    specialize (IH d eq_refl). simpl in H. unfold add_line in H.
    destruct (parse_response_time l) as [e|x]; [discriminate|].
    injection H as <-. rewrite keys_store, map_app, rev_app_distr. simpl.
    assert (Hin : In (runid l) (map fst d) <-> In (runid l) (rev (map runid lines))).
    { rewrite IH, <- in_rev, nodup_In. reflexivity. }
    destruct (in_dec run_id_eq_dec (runid l) (rev (map runid lines))) as [Hi|Hn].
    + apply Hin, existsb_eqb_In in Hi. rewrite Hi. exact IH.
    + destruct (existsb (run_id_eqb (runid l)) (map fst d)) eqn:Ex.
      * apply existsb_eqb_In, Hin in Ex. contradiction.
      * simpl. rewrite IH. reflexivity.
Qed.

(** X12.  The keys of the dictionary are the run ids of the file, each once,
    in the order in which they first appear. *)
Theorem keys_in_order_of_first_appearance
    (file : list (list line)) (data : dict) :
  ConvertCsvResultsIntoDictionary file = inr data ->
  map fst data = rev (nodup run_id_eq_dec (rev (map runid (concat file))))
  /\ NoDup (map fst data)
  /\ (forall key, In key (map fst data) <-> In key (map runid (concat file))).
Proof.
  unfold ConvertCsvResultsIntoDictionary. rewrite convert_csv_to_json_concat.
  intros H. apply add_chunk_keys in H. rewrite H.
  split; [reflexivity|]. split.
  - apply NoDup_rev, NoDup_nodup.
  - intros key. rewrite <- in_rev, nodup_In, <- in_rev. reflexivity.
Qed.

End WranglersProperties.

(** ** Perturbing a population *)

Section PerturbProperties.

Import Wranglers.
Context {python : Python}.

Lemma set_item_length (l : list float) (i : nat) (v : float) :
  length (set_item l i v) = length l.
Proof.
  revert i. induction l as [|x l IH]; intros [|i]; simpl; auto.
Qed.

Lemma set_item_other (l : list float) (i j : nat) (v : float) :
  j <> i -> nth_error (set_item l i v) j = nth_error l j.
Proof.
  revert i j. induction l as [|x l IH]; intros [|i] [|j] H; simpl; auto.
  congruence.
Qed.

Lemma set_item_same (l : list float) (i : nat) (v : float) :
  i < length l -> nth_error (set_item l i v) i = Some v.
Proof.
  revert i. induction l as [|x l IH]; intros [|i] H; simpl in *; try lia; auto.
  apply IH. lia.
Qed.

(** On a non-empty range [randint(0, n - 1)] returns an index below [n]. *)
Lemma randint_index (n : nat) (g : Random) :
  0 < n ->
  exists i g', randint 0 (Z.of_nat n - 1) g = inr (Z.of_nat i, g') /\ i < n.
Proof.
  intros Hn. unfold randint.
  replace (Z.to_nat (Z.of_nat n - 1 - 0 + 1)) with n by lia.
  destruct n as [|n]; [lia|].
  destruct (randbelow (S n) g) as [r g'].
  exists (r mod S n), g'. split; [reflexivity|].
  apply Nat.mod_upper_bound. discriminate.
Qed.

(** Once in the loop nothing fails on a non-empty population; the length is
    kept and all but the drawn positions are untouched. *)
Lemma perturb_runs (k : nat) (population : list float) (positive : bool)
    (delta : float) (g : Random) :
  population <> [] ->
  exists result g' drawn,
    perturb k population positive delta g = inr (result, g')
    /\ length result = length population
    /\ length drawn = k
    /\ Forall (fun j => j < length population) drawn
    /\ forall j, ~ In j drawn -> nth_error result j = nth_error population j.
Proof.
  revert population g. induction k as [|k IH]; intros population g Hne.
  - exists population, g, []. simpl. repeat split; auto.
  - assert (Hlen : 0 < length population)
      by (destruct population; [congruence | simpl; lia]).
    destruct (randint_index (length population) g Hlen) as [i [g1 [Hr Hi]]].
    simpl. rewrite Hr. rewrite Z.abs_eq, Nat2Z.id by lia.
    destruct (nth_error population i) as [current|] eqn:Hc;
      [|apply nth_error_None in Hc; lia].
    set (new := if positive then _ else _).
    destruct (IH (set_item population i new) g1) as [res [g' [drawn H]]].
    { intros E. apply (f_equal (@length float)) in E.
      rewrite set_item_length in E. simpl in E. lia. }
    destruct H as [Hp [Hl [Hd [Hb Hu]]]]. rewrite set_item_length in *.
    exists res, g', (i :: drawn). split; [exact Hp|].
    split; [exact Hl|]. split; [simpl; lia|].
    split; [apply Forall_cons; assumption|].
    intros j Hj. rewrite Hu by (intros Hin; apply Hj; right; exact Hin).
    apply set_item_other. intros E. apply Hj. left. congruence.
Qed.

Lemma perturb_absolute (k : nat) (population result : list float)
    (delta : float) (g g' : Random) :
  perturb k population false delta g = inr (result, g') ->
  forall j, nth_error result j = nth_error population j
            \/ exists y, nth_error result j = Some (F64.abs y).
Proof.
  revert population g. induction k as [|k IH]; intros population g H j.
  - injection H as <- _. left. reflexivity.
  - simpl in H. destruct (randint _ _ g) as [e|[i g1]]; [discriminate|].
    destruct (nth_error population (Z.to_nat (Z.abs i))) as [current|] eqn:Hc;
      [|discriminate].
    destruct (IH _ _ H j) as [E|E]; [|right; exact E].
    destruct (Nat.eq_dec j (Z.to_nat (Z.abs i))) as [->|Hj].
    + right. rewrite E. eexists. apply set_item_same.
      apply nth_error_Some. congruence.
    + left. rewrite E. apply set_item_other. exact Hj.
Qed.

Lemma rounds_empty (percentage : float) (k : Z) :
  rounds [] percentage = inr k -> k = 0%Z.
Proof.
  unfold rounds. simpl length.
  change (F64.div (F64.of_nat 0) (F64.of_Z 100)) with (S754_zero false).
  destruct percentage as [s|s| |s m e]; simpl; congruence.
Qed.

Lemma rounds_error (population : list float) (percentage : float) (e : exception) :
  rounds population percentage = inl e -> e = ValueError \/ e = OverflowError.
Proof.
  unfold rounds, py_int.
  destruct (F64.mul _ percentage); intros H; inversion H; auto.
Qed.

(** X13.  The perturbation can only fail where it computes the number of
    rounds, [int(len(population) / 100 * percentage)]: on a NaN with
    [ValueError], on an infinity with [OverflowError].  Otherwise it returns
    a list of the same length that differs from the population at no more
    positions than there were rounds. *)
Theorem perturbation_fails_only_in_rounds
    (population : list float) (positive : bool) (percentage delta : float)
    (g : Random) :
  match rounds population percentage with
  | inl e =>
      randomly_decrease_or_increase_part_of_the_population
        population positive percentage delta g = inl e
      /\ (e = ValueError \/ e = OverflowError)
  | inr k =>
      exists result g' drawn,
        randomly_decrease_or_increase_part_of_the_population
          population positive percentage delta g = inr (result, g')
        /\ length result = length population
        /\ length drawn = Z.to_nat k
        /\ Forall (fun j => j < length population) drawn
        /\ forall j, ~ In j drawn ->
                     nth_error result j = nth_error population j
  end.
Proof.
  unfold randomly_decrease_or_increase_part_of_the_population.
  destruct (rounds population percentage) as [e|k] eqn:Hr.
  - split; [reflexivity | eapply rounds_error; exact Hr].
  - destruct population as [|x population].
    + apply rounds_empty in Hr. subst k.
      exists [], g, []. simpl. repeat split; auto.
    + apply perturb_runs. discriminate.
Qed.

(** X14.  When the perturbation decreases ([positive] false), every value of
    the result is the population's value at that position or an absolute
    value: a decreased response time is never negative. *)
Theorem decrease_gives_absolute_values
    (population result : list float) (percentage delta : float)
    (g g' : Random) :
  randomly_decrease_or_increase_part_of_the_population
    population false percentage delta g = inr (result, g') ->
  forall j, nth_error result j = nth_error population j
            \/ exists y, nth_error result j = Some (F64.abs y).
Proof.
  unfold randomly_decrease_or_increase_part_of_the_population.
  destruct (rounds population percentage); [discriminate|].
  apply perturb_absolute.
Qed.

Lemma of_nat_quotient_class (n : nat) :
  (Z.of_nat n < 2 ^ 53)%Z ->
  F64.is_zero (F64.div (F64.of_nat n) (F64.of_Z 100)) = true
  \/ exists m e, F64.div (F64.of_nat n) (F64.of_Z 100) = S754_finite false m e.
Proof.
  intros Hn. unfold F64.of_nat. destruct n as [|n].
  - left. reflexivity.
  - right. apply div_of_Z_finite; [lia|].
    split; [reflexivity | reflexivity].
Qed.

(** X15.  With a percentage of zero (the default) no round is played: the
    population is returned as it is and the generator is not used. *)
Theorem zero_percentage_changes_nothing
    (population : list float) (positive : bool) (percentage delta : float)
    (g : Random) :
  (Z.of_nat (length population) < 2 ^ 53)%Z ->
  F64.is_zero percentage = true ->
  randomly_decrease_or_increase_part_of_the_population
    population positive percentage delta g = inr (population, g).
Proof.
  intros Hn Hz. unfold randomly_decrease_or_increase_part_of_the_population, rounds.
  destruct percentage as [s| | |]; try discriminate.
  destruct (of_nat_quotient_class (length population) Hn) as [H|[m [e H]]].
  - destruct (F64.div _ _); try discriminate. reflexivity.
  - rewrite H. reflexivity.
Qed.

End PerturbProperties.

(** ** Building a scenario *)

Section ScenarioProperties.

Import Wranglers.
Context {python : Python}.

Lemma lookup_In (key : run_id) (data : dict) (s : series) :
  lookup key data = Some s -> In s (map snd data).
Proof.
  induction data as [|[k v] data IH]; simpl; [discriminate|].
  destruct (run_id_eqb key k); intros H.
  - injection H as ->. left. reflexivity.
  - right. apply IH, H.
Qed.

Lemma lookup_None (key : run_id) (data : dict) :
  lookup key data = None <-> ~ In key (map fst data).
Proof.
  induction data as [|[k v] data IH]; simpl; [tauto|].
  destruct (run_id_eqb key k) eqn:E.
  - apply run_id_eqb_eq in E. subst. split; [discriminate | tauto].
  - apply run_id_eqb_neq in E. rewrite IH. split; [|tauto].
    intros H [C|C]; [congruence | tauto].
Qed.

Lemma lookup_aligned (key : run_id) (data : dict) (s : series) :
  Forall (fun ks => aligned (snd ks)) data ->
  lookup key data = Some s -> aligned s.
Proof.
  intros Hd Hl. apply lookup_In in Hl. apply in_map_iff in Hl as [ks [<- Hin]].
  rewrite Forall_forall in Hd. apply Hd, Hin.
Qed.

Lemma perturbation_length (population result : list float) (positive : bool)
    (percentage delta : float) (g g' : Random) :
  randomly_decrease_or_increase_part_of_the_population
    population positive percentage delta g = inr (result, g') ->
  length result = length population.
Proof.
  unfold randomly_decrease_or_increase_part_of_the_population.
  destruct (rounds population percentage) as [e|k] eqn:Hr; [discriminate|].
  destruct population as [|x population].
  - apply rounds_empty in Hr. subst k. simpl. intros H. injection H as <- _.
    reflexivity.
  - destruct (perturb_runs (Z.to_nat k) (x :: population) positive delta g)
      as [res [g1 [drawn [Hp [Hl _]]]]]; [discriminate|].
    rewrite Hp. intros H. injection H as <- _. exact Hl.
Qed.

Lemma perturbation_error (population : list float) (positive : bool)
    (percentage delta : float) (g : Random) (e : exception) :
  randomly_decrease_or_increase_part_of_the_population
    population positive percentage delta g = inl e ->
  e = ValueError \/ e = OverflowError.
Proof.
  unfold randomly_decrease_or_increase_part_of_the_population.
  destruct (rounds population percentage) as [e'|k] eqn:Hr.
  - intros H. injection H as <-. eapply rounds_error, Hr.
  - destruct population as [|x population].
    + apply rounds_empty in Hr. subst k. discriminate.
    + destruct (perturb_runs (Z.to_nat k) (x :: population) positive delta g)
        as [res [g1 [drawn [Hp _]]]]; [discriminate|].
      rewrite Hp. discriminate.
Qed.

(** X16.  In a scenario the baseline axes are the timestamps and the response
    times of the rows of the baseline run, in file order, the benchmark's x
    axis the timestamps of the rows of the benchmark run, and each y axis is
    as long as its x axis. *)
Theorem scenario_axes
    (baseline_id benchmark_id : run_id) (data_set : list (list line))
    (positive : bool) (percentage delta : float) (g g' : Random)
    (sc : scenario) :
  CreateFictitiousScenario baseline_id benchmark_id data_set
                           positive percentage delta g = inr (sc, g') ->
  let rows_of := fun id =>
    filter (fun l => run_id_eqb id (runid l)) (concat data_set) in
  baseline_x sc = map timestamp (rows_of baseline_id)
  /\ baseline_y sc = parsed_times (rows_of baseline_id)
  /\ benchmark_x sc = map timestamp (rows_of benchmark_id)
  /\ length (baseline_y sc) = length (baseline_x sc)
  /\ length (benchmark_y sc) = length (benchmark_x sc).
Proof.
  unfold CreateFictitiousScenario, ConvertCsvResultsIntoDictionary, getitem.
  rewrite convert_csv_to_json_concat.
  destruct (add_chunk_to_json [] (concat data_set)) as [e|data] eqn:Hc;
    [discriminate|].
  pose proof (add_chunk_aligned [] data _ (Forall_nil _) Hc) as Ha.
  destruct (lookup baseline_id data) as [b|] eqn:Hb; [|discriminate].
  destruct (lookup benchmark_id data) as [m|] eqn:Hm; [|discriminate].
  destruct (randomly_decrease_or_increase_part_of_the_population _ _ _ _ _)
    as [e|[perturbed g1]] eqn:Hp; [discriminate|].
  intros H. injection H as <- _. simpl.
  apply perturbation_length in Hp.
  pose proof (lookup_aligned _ _ _ Ha Hb) as [Ab _].
  pose proof (lookup_aligned _ _ _ Ha Hm) as [Am _].
  rewrite (add_chunk_lookup [] data _ baseline_id Hc) in Hb.
  rewrite (add_chunk_lookup [] data _ benchmark_id Hc) in Hm.
  simpl in Hb, Hm.
  destruct (filter _ (concat data_set)) as [|l1 r1] eqn:F1 in Hb; [discriminate|].
  destruct (filter _ (concat data_set)) as [|l2 r2] eqn:F2 in Hm; [discriminate|].
  injection Hb as <-. injection Hm as <-. simpl in *.
  rewrite F1, F2. repeat split; try reflexivity; congruence.
Qed.

(** X17.  Building a scenario raises [KeyError] exactly when the file converts
    and no row has the baseline id as its run-id cell, or none the benchmark
    id; ids and cells are compared as dictionary keys, so that the text of a
    number does not find the rows of a column read as whole numbers. *)
Theorem scenario_key_error
    (baseline_id benchmark_id : run_id) (data_set : list (list line))
    (positive : bool) (percentage delta : float) (g : Random) :
  CreateFictitiousScenario baseline_id benchmark_id data_set
                           positive percentage delta g = inl KeyError
  <-> (exists data, ConvertCsvResultsIntoDictionary data_set = inr data)
      /\ (~ In baseline_id (map runid (concat data_set))
          \/ ~ In benchmark_id (map runid (concat data_set))).
Proof.
  unfold CreateFictitiousScenario, ConvertCsvResultsIntoDictionary, getitem.
  rewrite convert_csv_to_json_concat.
  pose proof (add_chunk_outcome [] (concat data_set)) as Ho.
  destruct (add_chunk_to_json [] (concat data_set)) as [e|data] eqn:Hc.
  { destruct Ho as [before [l [after [_ [_ Hl]]]]].
    apply parse_response_time_error in Hl.
    split.
    - intros H. injection H as ->.
      destruct Hl as [[Hl _]|[Hl _]]; discriminate.
    - intros [[d Hd] _]. discriminate. }
  assert (Hk : forall key, lookup key data = None
                           <-> ~ In key (map runid (concat data_set))).
  { intros key. rewrite lookup_None, (add_chunk_keys _ _ Hc).
    rewrite <- in_rev, nodup_In, <- in_rev. reflexivity. }
  destruct (lookup baseline_id data) as [b|] eqn:Hb.
  - destruct (lookup benchmark_id data) as [m|] eqn:Hm.
    + split.
      * destruct (randomly_decrease_or_increase_part_of_the_population _ _ _ _ _)
          as [e|[perturbed g1]] eqn:Hp; [|discriminate].
        intros H. injection H as ->.
        apply perturbation_error in Hp. destruct Hp; discriminate.
      * intros [_ [H|H]]; apply Hk in H; congruence.
    + split; [|reflexivity]. intros _. split; [eauto|].
      right. apply Hk. exact Hm.
  - split; [|reflexivity]. intros _. split; [eauto|].
    left. apply Hk. exact Hb.
Qed.

End ScenarioProperties.

(** ** The model at concrete inputs *)

#[local] Existing Instance Reference.numpy.
#[local] Existing Instance Reference.scipy.

Lemma rescaled_table_never_stricter_witness :
  map rank LETTER_RANKS = rank_scale
  /\ scaled_up LETTER_RANKS (doubled LETTER_RANKS)
  /\ severity (_letter_rank_distance_statistics
                 (doubled LETTER_RANKS)
                 (F64.decimal 125 1000) (F64.decimal 100 1000))
     <= severity (_letter_rank_distance_statistics
                    LETTER_RANKS
                    (F64.decimal 125 1000) (F64.decimal 100 1000)).
Proof.
  assert (Hs : scaled_up LETTER_RANKS (doubled LETTER_RANKS))
    by (repeat (apply Forall2_cons;
                [split; [reflexivity | split; vm_compute; reflexivity]|]);
        apply Forall2_nil).
  split; [reflexivity|]. split; [exact Hs|].
  apply (rescaled_table_never_stricter
           (F64.decimal 125 1000) (F64.decimal 100 1000)
           LETTER_RANKS (doubled LETTER_RANKS));
    [reflexivity | exact Hs].
Defined.

Example rank_from_doubled_table :
  _letter_rank_distance_statistics
    LETTER_RANKS (F64.decimal 125 1000) (F64.decimal 100 1000) = "D"
  /\ _letter_rank_distance_statistics
       (doubled LETTER_RANKS) (F64.decimal 125 1000) (F64.decimal 100 1000)
     = "B".
Proof. split; vm_compute; reflexivity. Qed.

(** Two generator states that differ and give the same draws. *)
Lemma identical_draws_identical_reports_witness :
  outcome (resampled (floats_to 4) (floats_to 6) (Reference.seed 7))
  = outcome (resampled (floats_to 4) (floats_to 6) (Reference.seed (7 + 2 ^ 31)))
  /\ outcome (__init__ (floats_to 4) (floats_to 6) (Reference.seed 7))
     = outcome (__init__ (floats_to 4) (floats_to 6) (Reference.seed (7 + 2 ^ 31))).
Proof.
  assert (H : outcome (resampled (floats_to 4) (floats_to 6) (Reference.seed 7))
              = outcome (resampled (floats_to 4) (floats_to 6) (Reference.seed (7 + 2 ^ 31))))
    by (vm_compute; reflexivity).
  split; [exact H|].
  apply (identical_draws_identical_reports
           (floats_to 4) (floats_to 6) (Reference.seed 7) (Reference.seed (7 + 2 ^ 31)) H).
Defined.

(** Three equal values, drawn from themselves: the deviation is zero, and
    the measures the construction passes on are NaN or infinite. *)
Lemma zero_deviation_is_not_rejected_witness :
  F64.is_zero (np_std ones) = true
  /\ fst (draw ones (Nat.min (length ones) (length ones)) (Reference.seed 7))
     = ones
  /\ Forall (fun y => F64.is_nan y || F64.is_infinity y = true)
            (normalize_raw_data ones)
  /\ Forall (fun y => F64.is_nan y || F64.is_infinity y = true)
            (map measure (empirical_distribution ones)).
Proof.
  assert (H : F64.is_zero (np_std ones) = true) by (vm_compute; reflexivity).
  assert (D : fst (draw ones (Nat.min (length ones) (length ones))
                        (Reference.seed 7)) = ones)
    by (vm_compute; reflexivity).
  split; [exact H|]. split; [exact D|].
  pose proof (zero_deviation_is_not_rejected ones H) as [_ [N [_ [_ C]]]].
  split; [exact N|].
  exact (proj1 (C ones ones (Reference.seed 7) D)).
Defined.

(** C4, as stated, fails: a population of three equal values is not
    rejected.  The builder returns a sample whose measures are all NaN, and
    the construction hands two such samples to the statistics, whatever
    SciPy does with them. *)
Lemma constant_population_is_not_rejected :
  let third := F64.div (F64.of_Z 1) (F64.of_Z 3) in
  let two_thirds := F64.div (F64.of_Z 2) (F64.of_Z 3) in
  let nan_sample :=
    [Row F64.nan (F64.of_Z 0); Row F64.nan third; Row F64.nan two_thirds] in
  normalize_raw_data ones = [F64.nan; F64.nan; F64.nan]
  /\ outcome (_calculate_empirical_cumulative_distribution_function 3 ones (Reference.seed 7))
     = inr nan_sample
  /\ (forall scipy : SciPy,
        outcome (__init__ ones ones (Reference.seed 7)) = analyse 3 nan_sample nan_sample).
Proof.
  split; [vm_compute; reflexivity|].
  split; [vm_compute; reflexivity|].
  intros scipy. rewrite init_outcome. reflexivity.
Qed.


(** Populations that are not constant: with the reference statistics the
    three values of the report are in range. *)
Example report_in_range_for_distinct_values :
  match outcome (__init__ (floats_to 4) (floats_to 6) (Reference.seed 7)) with
  | inr self => report_in_range self = true
  | inl _ => False
  end.
Proof. vm_compute. reflexivity. Qed.

(** With the reference statistics the object is built, its Wasserstein
    distance is NaN and its rank is the fallback. *)
Example constant_population_report :
  match outcome (__init__ ones ones (Reference.seed 7)) with
  | inr self =>
      F64.is_nan (Self.wasserstein_d_value self) = true
      /\ Self.rank self = "F"
  | inl _ => False
  end.
Proof. vm_compute. split; reflexivity. Qed.

(** Equal values need not give a zero deviation: the mean of three times
    [0.1] is computed above [0.1], and every normalized value is [-1.0]. *)
Example equal_values_nonzero_deviation :
  let tenth := F64.decimal 1 10 in
  F64.is_zero (np_std [tenth; tenth; tenth]) = false
  /\ normalize_raw_data [tenth; tenth; tenth]
     = [F64.of_Z (-1); F64.of_Z (-1); F64.of_Z (-1)].
Proof. vm_compute. split; reflexivity. Qed.

(** Sizes 25 and 30: the rows from 24/25 and from 29/30 on are dropped. *)
Example trimmed_sizes :
  (forall sample, outcome (_calculate_empirical_cumulative_distribution_function
                             25 (floats_to 25) (Reference.seed 7)) = inr sample ->
                  length sample = 24)
  /\ (forall sample, outcome (_calculate_empirical_cumulative_distribution_function
                                30 (floats_to 40) (Reference.seed 7)) = inr sample ->
                     length sample = 29).
Proof.
  split; intros sample H; vm_compute in H; injection H as <-; reflexivity.
Qed.

(** A draw with replacement can return a value twice. *)
Example draw_repeats :
  fst (draw (floats_to 3) 3 (Reference.seed 3))
  = [F64.of_Z 1; F64.of_Z 3; F64.of_Z 1].
Proof. vm_compute. reflexivity. Qed.

(** Two equal populations and draws that coincide: both distances are zero
    and the rank is S. *)
Example identical_samples_rank_S :
  match analyse 8 (empirical_distribution (floats_to 8))
                  (empirical_distribution (floats_to 8)) with
  | inr self =>
      Self.wasserstein_d_value self = F64.of_Z 0
      /\ Self.ks_d_value self = F64.of_Z 0
      /\ Self.ks_p_value self = F64.of_Z 1
      /\ Self.rank self = "S"
  | inl _ => False
  end.
Proof. vm_compute. repeat split; reflexivity. Qed.

(** ** The added properties at concrete inputs *)

#[local] Existing Instance ReferencePython.python.

Lemma rank_no_worse_than_row_witness :
  1 < 6
  /\ nth_error LETTER_RANKS 1
     = Some (Grade (F64.decimal 60 1000) (F64.decimal 150 1000) "A")
  /\ (severity (_letter_rank_distance_statistics
                  LETTER_RANKS (F64.decimal 40 1000) (F64.decimal 90 1000)) <= 1
      <-> F64.ltb (F64.decimal 40 1000) (F64.decimal 60 1000) = true
          /\ F64.ltb (F64.decimal 90 1000) (F64.decimal 150 1000) = true).
Proof.
  split; [lia|]. split; [reflexivity|].
  apply (rank_no_worse_than_row
           (F64.decimal 40 1000) (F64.decimal 90 1000) 1
           (Grade (F64.decimal 60 1000) (F64.decimal 150 1000) "A"));
    [lia | reflexivity].
Defined.

Lemma rank_monotone_in_distances_witness :
  F64.leb (F64.decimal 40 1000) (F64.decimal 110 1000) = true
  /\ F64.leb (F64.decimal 90 1000) (F64.decimal 90 1000) = true
  /\ severity (_letter_rank_distance_statistics
                 LETTER_RANKS (F64.decimal 40 1000) (F64.decimal 90 1000))
     <= severity (_letter_rank_distance_statistics
                    LETTER_RANKS (F64.decimal 110 1000) (F64.decimal 90 1000)).
Proof.
  assert (Hw : F64.leb (F64.decimal 40 1000) (F64.decimal 110 1000) = true)
    by (vm_compute; reflexivity).
  assert (Hk : F64.leb (F64.decimal 90 1000) (F64.decimal 90 1000) = true)
    by (vm_compute; reflexivity).
  split; [exact Hw|]. split; [exact Hk|].
  apply (rank_monotone_in_distances _ _ _ _ Hw Hk).
Defined.

Lemma trimmed_sample_is_prefix_witness :
  (Z.of_nat (length (floats_to 30)) < 2 ^ 48)%Z
  /\ length (empirical_distribution (floats_to 30)) = 29.
Proof.
  assert (H : (Z.of_nat (length (floats_to 30)) < 2 ^ 48)%Z)
    by (vm_compute; reflexivity).
  split; [exact H|].
  exact (proj1 (proj2 (proj2 (trimmed_sample_is_prefix (floats_to 30) H)))).
Defined.

Lemma smallest_value_is_kept_witness :
  floats_to 3 <> []
  /\ exists first rest,
       empirical_distribution (floats_to 3) = first :: rest
       /\ hd_error (np_sort (normalize_raw_data (floats_to 3)))
          = Some (measure first)
       /\ probability first
          = F64.div (F64.of_nat 0) (F64.of_nat (length (floats_to 3)))
       /\ Forall (fun y => np_le (measure first) y = true)
                 (normalize_raw_data (floats_to 3)).
Proof.
  assert (H : floats_to 3 <> []) by discriminate.
  split; [exact H|]. apply (smallest_value_is_kept (floats_to 3) H).
Defined.

Example results_converted :
  Wranglers.ConvertCsvResultsIntoDictionary ReferencePython.results
  = inr ReferencePython.results_data.
Proof. vm_compute. reflexivity. Qed.

Example unparsable_row_raises :
  Wranglers.ConvertCsvResultsIntoDictionary
    [[ReferencePython.text_line "1,5" "run-1" "10:00:00" "login";
      ReferencePython.text_line "n/a" "run-1" "10:00:01" "login"]]
  = inl Wranglers.ValueError.
Proof. vm_compute. reflexivity. Qed.

(** A chunk whose response times are all whole numbers: pandas hands them
    over as [int], and the first row raises. *)
Example whole_number_response_time_raises :
  Wranglers.ConvertCsvResultsIntoDictionary
    [[Wranglers.Line (Wranglers.Int 3) (Wranglers.StrId "run-1")
                     (Wranglers.Str "10:00:00") (Wranglers.Str "login");
      Wranglers.Line (Wranglers.Int 4) (Wranglers.StrId "run-1")
                     (Wranglers.Str "10:00:01") (Wranglers.Str "login")]]
  = inl Wranglers.AttributeError.
Proof. vm_compute. reflexivity. Qed.

(** A missing response time is a NaN cell, not text. *)
Example missing_response_time_raises :
  Wranglers.ConvertCsvResultsIntoDictionary
    [[ReferencePython.text_line "1,5" "run-1" "10:00:00" "login";
      Wranglers.Line (Wranglers.Float F64.nan) (Wranglers.StrId "run-1")
                     (Wranglers.Str "10:00:01") (Wranglers.Str "login")]]
  = inl Wranglers.AttributeError.
Proof. vm_compute. reflexivity. Qed.

(** The same run id read as a number in one chunk and as text in the next
    gives two keys. *)
Example number_and_text_are_two_keys :
  match Wranglers.ConvertCsvResultsIntoDictionary
          [[ReferencePython.numbered_line "1,5" 7 "10:00:00" "login"];
           [ReferencePython.text_line "2,5" "7" "10:00:01" "login"]] with
  | inr data => map fst data = [Wranglers.IntId 7; Wranglers.StrId "7"]
  | inl _ => False
  end.
Proof. vm_compute. reflexivity. Qed.

Lemma rows_grouped_by_run_id_witness :
  Wranglers.ConvertCsvResultsIntoDictionary ReferencePython.results
  = inr ReferencePython.results_data
  /\ Wranglers.lookup (Wranglers.StrId "run-2") ReferencePython.results_data
     = Some (Wranglers.Series
               [F64.decimal 225 100; F64.decimal 75 100]
               (map Wranglers.Str ["10:00:01"; "10:00:03"])
               (map Wranglers.Str ["login"; "search"])).
Proof.
  assert (H : Wranglers.ConvertCsvResultsIntoDictionary ReferencePython.results
              = inr ReferencePython.results_data)
    by (vm_compute; reflexivity).
  split; [exact H|].
  pose proof (rows_grouped_by_run_id
                ReferencePython.results ReferencePython.results_data
                (Wranglers.StrId "run-2") H) as P.
  vm_compute in P. vm_compute. exact P.
Defined.

Lemma converted_series_aligned_witness :
  Wranglers.ConvertCsvResultsIntoDictionary ReferencePython.results
  = inr ReferencePython.results_data
  /\ Forall (fun ks => Wranglers.aligned (snd ks)) ReferencePython.results_data.
Proof.
  assert (H : Wranglers.ConvertCsvResultsIntoDictionary ReferencePython.results
              = inr ReferencePython.results_data)
    by (vm_compute; reflexivity).
  split; [exact H|].
  exact (converted_series_aligned
           ReferencePython.results ReferencePython.results_data H).
Defined.

Lemma keys_in_order_of_first_appearance_witness :
  Wranglers.ConvertCsvResultsIntoDictionary ReferencePython.results
  = inr ReferencePython.results_data
  /\ map fst ReferencePython.results_data
     = [Wranglers.StrId "run-1"; Wranglers.StrId "run-2"].
Proof.
  assert (H : Wranglers.ConvertCsvResultsIntoDictionary ReferencePython.results
              = inr ReferencePython.results_data)
    by (vm_compute; reflexivity).
  split; [exact H|].
  pose proof (proj1 (keys_in_order_of_first_appearance
                       ReferencePython.results ReferencePython.results_data H))
    as P.
  vm_compute in P. exact P.
Defined.

Example rounds_of_thirty_percent :
  Wranglers.rounds (repeat (F64.of_Z 1) 1000) (F64.of_Z 30) = inr 300%Z.
Proof. vm_compute. reflexivity. Qed.

Example rounds_of_nan_percentage :
  Wranglers.rounds (repeat (F64.of_Z 1) 10) F64.nan = inl Wranglers.ValueError.
Proof. vm_compute. reflexivity. Qed.

(** Two rounds on four values, decreasing by ten percent: both rounds draw
    the first position. *)
Example decrease_twice :
  match Wranglers.randomly_decrease_or_increase_part_of_the_population
          (floats_to 4) false (F64.of_Z 50) (F64.of_Z 10)
          (ReferencePython.seed 7) with
  | inr (result, _) =>
      result
      = [F64.abs (F64.sub (F64.decimal 9 10)
                          (F64.mul (F64.div (F64.decimal 9 10) (F64.of_Z 100))
                                   (F64.of_Z 10)));
         F64.of_Z 2; F64.of_Z 3; F64.of_Z 4]
  | inl _ => False
  end.
Proof. vm_compute. reflexivity. Qed.

Lemma decrease_gives_absolute_values_witness :
  match Wranglers.randomly_decrease_or_increase_part_of_the_population
          (floats_to 4) false (F64.of_Z 50) (F64.of_Z 10)
          (ReferencePython.seed 7) with
  | inr (result, _) =>
      nth_error result 0 = nth_error (floats_to 4) 0
      \/ exists y, nth_error result 0 = Some (F64.abs y)
  | inl _ => False
  end.
Proof.
  destruct (Wranglers.randomly_decrease_or_increase_part_of_the_population
              (floats_to 4) false (F64.of_Z 50) (F64.of_Z 10)
              (ReferencePython.seed 7)) as [e|[result g']] eqn:E.
  - vm_compute in E. discriminate E.
  - exact (decrease_gives_absolute_values
             (floats_to 4) result (F64.of_Z 50) (F64.of_Z 10)
             (ReferencePython.seed 7) g' E 0).
Defined.

Lemma zero_percentage_changes_nothing_witness :
  (Z.of_nat (length (floats_to 4)) < 2 ^ 53)%Z
  /\ F64.is_zero (F64.of_Z 0) = true
  /\ Wranglers.randomly_decrease_or_increase_part_of_the_population
       (floats_to 4) true (F64.of_Z 0) (F64.of_Z 10) (ReferencePython.seed 7)
     = inr (floats_to 4, ReferencePython.seed 7).
Proof.
  assert (Hn : (Z.of_nat (length (floats_to 4)) < 2 ^ 53)%Z)
    by (vm_compute; reflexivity).
  assert (Hz : F64.is_zero (F64.of_Z 0) = true) by reflexivity.
  split; [exact Hn|]. split; [exact Hz|].
  exact (zero_percentage_changes_nothing
           (floats_to 4) true (F64.of_Z 0) (F64.of_Z 10)
           (ReferencePython.seed 7) Hn Hz).
Defined.

Lemma scenario_axes_witness :
  match Wranglers.CreateFictitiousScenario
          (Wranglers.StrId "run-1") (Wranglers.StrId "run-2")
          ReferencePython.results
          true (F64.of_Z 50) (F64.of_Z 10) (ReferencePython.seed 7) with
  | inr (sc, _) =>
      length (Wranglers.baseline_y sc) = length (Wranglers.baseline_x sc)
      /\ length (Wranglers.benchmark_y sc) = length (Wranglers.benchmark_x sc)
  | inl _ => False
  end.
Proof.
  destruct (Wranglers.CreateFictitiousScenario
              (Wranglers.StrId "run-1") (Wranglers.StrId "run-2")
              ReferencePython.results
              true (F64.of_Z 50) (F64.of_Z 10) (ReferencePython.seed 7))
    as [e|[sc g']] eqn:E.
  - vm_compute in E. discriminate E.
  - exact (proj2 (proj2 (proj2
             (scenario_axes (Wranglers.StrId "run-1") (Wranglers.StrId "run-2")
                ReferencePython.results
                true (F64.of_Z 50) (F64.of_Z 10)
                (ReferencePython.seed 7) g' sc E)))).
Defined.

Example unknown_run_id_raises :
  Wranglers.CreateFictitiousScenario
    (Wranglers.StrId "run-1") (Wranglers.StrId "run-9") ReferencePython.results
    true (F64.of_Z 50) (F64.of_Z 10) (ReferencePython.seed 7)
  = inl Wranglers.KeyError.
Proof. vm_compute. reflexivity. Qed.

(** The run ids of the file are the numbers 1 and 2: their text raises, the
    numbers themselves build the scenario. *)
Example text_of_a_number_raises :
  Wranglers.CreateFictitiousScenario
    (Wranglers.StrId "1") (Wranglers.StrId "2") ReferencePython.numbered_results
    true (F64.of_Z 0) (F64.of_Z 0) (ReferencePython.seed 7)
  = inl Wranglers.KeyError
  /\ match Wranglers.CreateFictitiousScenario
             (Wranglers.IntId 1) (Wranglers.IntId 2)
             ReferencePython.numbered_results
             true (F64.of_Z 0) (F64.of_Z 0) (ReferencePython.seed 7) with
     | inr (sc, _) =>
         Wranglers.baseline_y sc = [F64.decimal 15 10; F64.decimal 75 100]
     | inl _ => False
     end.
Proof. split; vm_compute; reflexivity. Qed.
